(** * The NVCF remote-invocation client ([notebook/nvcf_async.py])

    A shallow embedding of the asynchronous client: asset upload, request
    formation, submission with bounded exponential-backoff polling, and
    content-type driven decoding of the terminal response.

    Conventions of the embedding.
    - Python values that the code handles dynamically (JSON documents, the
      identifiers read out of them, [Result.output]) are terms of [pyval].
    - A function that can raise returns a [result]; a coroutine that talks
      to the network or sleeps lives in the monad [M], which threads the
      history of events, collects the events of the run and can raise.
    - [aiohttp], [json], [zipfile] and [str()] are libraries: the client is
      parametrised by them through the class [PyRuntime].
    - Delays are Python floats.  Doubling and [min] are exact on binary
      floats (short of overflow), so they are modelled on rationals [Q];
      the default initial delay [0.001] is taken as [1/1000].
    - Calls to [logging] are left out: they change neither the control flow
      nor a value.  [print] is kept, as an event. *)

From Stdlib Require Import ZArith QArith Qminmax Lqa String Ascii DecimalString.
From stdpp Require Import base option list strings gmap fin_maps.

Set Warnings "-register-all".

Local Open Scope string_scope.
Local Open Scope list_scope.
Local Open Scope Z_scope.

(** ** Python values and exceptions *)

Inductive pyval : Type :=
  | PNone
  | PInt (z : Z)
  | PStr (s : string)
  | PBytes (b : string)
  | PList (l : list pyval)
  | PDict (d : gmap string pyval).

Inductive exn : Type :=
  | FileNotFoundError (msg : string)
  | TimeoutError (msg : string)
  | ValueError (msg : string)
  | KeyError (key : string)
  | TypeError
  | AssertionError
  | ConnectionTimeoutError
  | OtherError (name : string).

Inductive result (A : Type) : Type :=
  | Ok (a : A)
  | Raise (e : exn).
Arguments Ok {A} a.
Arguments Raise {A} e.

#[global] Instance result_ret : MRet result := fun _ a => Ok a.
#[global] Instance result_bind : MBind result := fun _ _ f r =>
  match r with
  | Ok a => f a
  | Raise e => Raise e
  end.

(** ** Responses, requests and the transport *)

(** An [aiohttp.ClientResponse], seen through the attributes and coroutines
    the client uses; each coroutine may raise. *)
Record ClientResponse : Type := {
  status : Z;
  content_type : string;
  read : result string;
  text : result string;
  json : result pyval;
}.

Inductive Method : Type := GET | POST | PUT.

Inductive Payload : Type :=
  | NoBody
  | JsonBody (j : pyval)
  | DataBody (data : string).

Record Request : Type := {
  meth : Method;
  url : pyval;
  headers : gmap string string;
  payload : Payload;
}.

Inductive Reply : Type :=
  | Resp (r : ClientResponse)
  | NetRaise (e : exn).

Inductive Event : Type :=
  | EvRequest (req : Request) (rep : Reply)
  | EvSleep (seconds : Q)
  | EvPrint (line : string).

(** An [aiohttp.ClientSession] with the server behind it: the reply to a
    request may depend on everything that happened before it. *)
Definition ClientSession : Type := list Event → Request → Reply.

(** What the run can observe of its surroundings: the files on disk and the
    events so far. *)
Record Env : Type := {
  files : gmap string string;
  past : list Event;
}.

Definition advance (env : Env) (es : list Event) : Env :=
  {| files := files env; past := past env ++ es |}.

(** ** The monad of coroutines

    A run returns its outcome and the events it caused, in order; [None]
    means that a loop ran out of fuel. *)
Definition M (A : Type) : Type := Env → option (result A * list Event).

#[global] Instance M_ret : MRet M := fun _ a _ => Some (Ok a, []).
#[global] Instance M_bind : MBind M := fun _ _ f m env =>
  match m env with
  | None => None
  | Some (Raise e, es) => Some (Raise e, es)
  | Some (Ok a, es) =>
      match f a (advance env es) with
      | None => None
      | Some (r, es') => Some (r, es ++ es')
      end
  end.

Definition raise {A} (e : exn) : M A := fun _ => Some (Raise e, []).

Definition lift {A} (r : result A) : M A := fun _ => Some (r, []).

Definition emit (ev : Event) : M unit := fun _ => Some (Ok tt, [ev]).

Definition path_exists (path : string) : M bool :=
  fun env => Some (Ok (if files env !! path is Some _ then true else false), []).

Definition read_file (path : string) : M string :=
  fun env =>
    match files env !! path with
    | Some data => Some (Ok data, [])
    | None => Some (Raise (FileNotFoundError path), [])
    end.

(** [async with session.<verb>(url, ...) as response], the body not read yet. *)
Definition request (session : ClientSession) (req : Request) : M ClientResponse :=
  fun env =>
    match session (past env) req with
    | Resp r => Some (Ok r, [EvRequest req (Resp r)])
    | NetRaise e => Some (Raise e, [EvRequest req (NetRaise e)])
    end.

(** [async with session.<verb>(url, ...) as response: await response.read()].
    The event shows a response once its body has been read; a failure of
    either step is the failure of the request. *)
Definition request_read (session : ClientSession) (req : Request) : M ClientResponse :=
  fun env =>
    match session (past env) req with
    | Resp r =>
        match read r with
        | Ok _ => Some (Ok r, [EvRequest req (Resp r)])
        | Raise e => Some (Raise e, [EvRequest req (NetRaise e)])
        end
    | NetRaise e => Some (Raise e, [EvRequest req (NetRaise e)])
    end.

Definition sleep (seconds : Q) : M unit := emit (EvSleep seconds).

Definition print (line : string) : M unit := emit (EvPrint line).

(** ** Strings *)

(** [f"{n}"] for an [int]. *)
Definition string_of_nat (n : nat) : string :=
  NilZero.string_of_uint (Nat.to_uint n).

Definition string_of_Z (z : Z) : string :=
  NilZero.string_of_int (Z.to_int z).

(** [s.endswith(suffix)]. *)
Definition endswith (s suffix : string) : bool :=
  (String.length suffix <=? String.length s)%nat &&
  String.eqb
    (substring (String.length s - String.length suffix) (String.length suffix) s)
    suffix.

(** [s[:-n]] for [n > 0]. *)
Definition drop_last (n : nat) (s : string) : string :=
  substring 0 (String.length s - n) s.

(** [os.path.basename] on a POSIX path: what follows the last slash. *)
Fixpoint basename_from (current path : string) : string :=
  match path with
  | EmptyString => current
  | String c rest =>
      if Ascii.eqb c "/"%char then basename_from "" rest
      else basename_from (current +:+ String c "") rest
  end.

Definition basename (path : string) : string := basename_from "" path.

Definition newline : string := String (ascii_of_nat 10) "".

(** [sep.join(items)]: every item has to be a [str]. *)
Fixpoint str_items (items : list pyval) : result (list string) :=
  match items with
  | [] => Ok []
  | PStr s :: rest => ss ← str_items rest; mret (s :: ss)
  | _ :: _ => Raise TypeError
  end.

Definition str_join (sep : string) (items : list pyval) : result string :=
  ss ← str_items items; mret (String.concat sep ss).

(** [obj[key]] for a string key. *)
Definition getitem (obj : pyval) (key : string) : result pyval :=
  match obj with
  | PDict d =>
      match d !! key with
      | Some v => Ok v
      | None => Raise (KeyError key)
      end
  | _ => Raise TypeError
  end.

(** ** The libraries the client is written against *)

(** An open [zipfile.ZipFile]. *)
Record ZipArchive : Type := {
  namelist : list string;
  zread : string → result string;
}.

Class PyRuntime : Type := {
  (** [str(v)], as used by f-strings *)
  py_str : pyval → string;
  (** [json.loads] *)
  json_loads : string → result pyval;
  (** [zipfile.is_zipfile] *)
  is_zipfile : string → bool;
  (** [zipfile.ZipFile(io.BytesIO(content))] *)
  ZipFile : string → result ZipArchive;
}.

(** ** Constants and the result envelope *)

Definition FUNCTION_URL : string :=
  "https://ai.api.nvidia.com/v1/cosmos/nvidia/cosmos-transfer".

Definition NVCF_URL_PROD : string := "https://api.nvcf.nvidia.com/v2/nvcf".

Record Result : Type := {
  response_text : pyval;
  output : pyval;
  status_code : Z;
}.

(** ** Request formation *)

Definition _format_request (command token : string) (asset_names : list pyval)
    : result (pyval * gmap string string) :=
  let headers : gmap string string :=
    {[ "Authorization" := "Bearer " +:+ token;
       "Content-Type" := "application/json";
       "NVCF-POLL-SECONDS" := "3600" ]} in
  headers ←
    (if (0 <? length asset_names)%nat
     then refs ← str_join "," asset_names;
          mret (<["NVCF-INPUT-ASSET-REFERENCES" := refs]> headers)
     else mret headers);
  let inputs : list pyval :=
    [ PDict {[ "name" := PStr "command";
               "shape" := PList [PInt 1];
               "datatype" := PStr "BYTES";
               "data" := PList [PStr command] ]} ] in
  let inputs :=
    inputs ++
    imap (λ i asset,
            PDict {[ "name" := PStr ("image_assetId_" +:+ string_of_nat i);
                     "shape" := PList [PInt 1];
                     "datatype" := PStr "BYTES";
                     "data" := PList [asset] ]})
         asset_names in
  mret (PDict {[ "inputs" := PList inputs ]}, headers).

Section Client.
Context `{PyRuntime}.

Definition _generate_command (api : string) (params : list (string * pyval)) : string :=
  api +:+ " " +:+
  String.concat " " (map (λ kv, "--" +:+ kv.1 +:+ "=" +:+ py_str kv.2) params).

(** ** Asset upload *)

Definition _create_asset_async (session : ClientSession)
    (token asset_name content_type nvcf_url : string) : M ClientResponse :=
  let url := newline +:+ nvcf_url +:+ "/assets" in
  let headers : gmap string string :=
    {[ "Content-Type" := "application/json";
       "Authorization" := "Bearer " +:+ token ]} in
  let data := PDict {[ "contentType" := PStr content_type;
                       "description" := PStr asset_name ]} in
  response ← request_read session
    {| meth := POST; url := PStr url; headers := headers; payload := JsonBody data |};
  mret response.

Definition _upload_asset_async (session : ClientSession) (asset_url : pyval)
    (asset_name content_type asset_data : string) : M ClientResponse :=
  let headers : gmap string string :=
    {[ "Content-Type" := content_type;
       "x-amz-meta-nvcf-asset-description" := asset_name ]} in
  response ← request_read session
    {| meth := PUT; url := asset_url; headers := headers; payload := DataBody asset_data |};
  mret response.

(** Returns the asset identifier, or [None] when the upload was refused. *)
Definition _prepare_local_asset_async (session : ClientSession)
    (token asset_name filepath nvcf_url : string) : M pyval :=
  there ← path_exists filepath;
  if String.eqb filepath "" || negb there
  then raise (FileNotFoundError (filepath +:+ " not found"))
  else
    file_binary ← read_file filepath;
    asset_result ← _create_asset_async session token asset_name
                      "binary/octet-stream" nvcf_url;
    result_json ← lift (json asset_result);
    asset_url ← lift (getitem result_json "uploadUrl");
    asset_id ← lift (getitem result_json "assetId");
    result ← _upload_asset_async session asset_url asset_name
                "binary/octet-stream" file_binary;
    if negb (status result =? 200)
    then
      response_text ← lift (text result);
      _ ← print ("Image upload failed with status code " +:+
                 string_of_Z (status result) +:+ ": " +:+ response_text +:+ ".");
      mret PNone
    else mret asset_id.

(** ** Submission and polling *)

(** The [while] loop of [_poll_response_async]; it hands back the loop
    variables [response] and [attempt] as they are when the loop is left. *)
Fixpoint poll_loop (fuel : nat) (session : ClientSession) (token nvcf_url : string)
    (max_attempts : Z) (max_backoff : Q)
    (response : ClientResponse) (attempt : Z) (delay : Q)
    : M (ClientResponse * Z) :=
  match fuel with
  | O => fun _ => None
  | S fuel =>
      if (status response =? 202) && (attempt <? max_attempts)
      then
        json ← lift (json response);
        request_id ← lift (getitem json "reqId");
        let url := nvcf_url +:+ "/exec/status/" +:+ py_str request_id in
        response ← request_read session
          {| meth := GET; url := PStr url;
             headers := {[ "Authorization" := "Bearer " +:+ token ]};
             payload := NoBody |};
        if negb (status response =? 202)
        then mret (response, attempt)
        else
          let attempt := attempt + 1 in
          if attempt <? max_attempts
          then
            let delay := Qmin (delay * 2) max_backoff in
            _ ← sleep delay;
            poll_loop fuel session token nvcf_url max_attempts max_backoff
                      response attempt delay
          else
            poll_loop fuel session token nvcf_url max_attempts max_backoff
                      response attempt delay
      else mret (response, attempt)
  end.

Definition _poll_response_async (session : ClientSession) (response : ClientResponse)
    (token nvcf_url : string) (initial_delay : Q) (max_attempts : Z) (max_backoff : Q)
    : M ClientResponse :=
  let attempt := 0 in
  let delay := initial_delay in
  '(response, attempt) ←
    poll_loop (S (Z.to_nat max_attempts)) session token nvcf_url
              max_attempts max_backoff response attempt delay;
  if max_attempts <=? attempt
  then raise (TimeoutError "Maximum polling attempts reached")
  else mret response.

(** ** Decoding *)

Fixpoint unpack_entries (zip_archive : ZipArchive) (zipped_files : list string)
    (output : gmap string pyval) : result (gmap string pyval) :=
  match zipped_files with
  | [] => Ok output
  | zipped_file :: rest =>
      if endswith zipped_file ".json" then
        data ← zread zip_archive zipped_file;
        value ← json_loads data;
        unpack_entries zip_archive rest
          (<[drop_last 5 (basename zipped_file) := value]> output)
      else if endswith zipped_file ".png" then
        data ← zread zip_archive zipped_file;
        unpack_entries zip_archive rest (<["image" := PBytes data]> output)
      else if endswith zipped_file ".mp4" then
        data ← zread zip_archive zipped_file;
        unpack_entries zip_archive rest (<["video" := PBytes data]> output)
      else unpack_entries zip_archive rest output
  end.

Definition _unpack_zip_response_async (response : ClientResponse)
    : result (gmap string pyval) :=
  content ← read response;
  if negb (is_zipfile content) then Raise AssertionError
  else
    zip_archive ← ZipFile content;
    unpack_entries zip_archive (namelist zip_archive) ∅.

Definition process_response (response : ClientResponse) : result pyval :=
  if String.eqb (content_type response) "application/json" then
    response_text ← text response;
    json_loads response_text
  else if String.eqb (content_type response) "application/zip" then
    output ← _unpack_zip_response_async response;
    mret (PDict output)
  else
    Raise (ValueError ("Unsupported content type: " +:+ content_type response)).

(** ** The orchestrator *)

(** The [for filepath in filepaths] loop of [api_call_async]. *)
Fixpoint upload_assets (session : ClientSession) (token nvcf_url : string)
    (filepaths : list string) (asset_names : list pyval) : M (list pyval) :=
  match filepaths with
  | [] => mret asset_names
  | filepath :: rest =>
      asset ← _prepare_local_asset_async session token filepath filepath nvcf_url;
      upload_assets session token nvcf_url rest (asset_names ++ [asset])
  end.

(** The session is opened by [api_call_async] itself; here it is an argument,
    since it stands for the network the call runs against. *)
Definition api_call_async (session : ClientSession) (token : string)
    (params : list (string * pyval)) (filepaths : list string) (nvcf_url : string)
    : M Result :=
  asset_names ← upload_assets session token nvcf_url filepaths [];
  let command := _generate_command "vis_control" params in
  '(request_body, headers) ← lift (_format_request command token asset_names);
  response ← request session
    {| meth := POST; url := PStr FUNCTION_URL; headers := headers;
       payload := JsonBody request_body |};
  response ← _poll_response_async session response token nvcf_url
                (1 # 1000) 10 32;
  if negb (status response =? 200)
  then
    body ← lift (text response);
    mret {| response_text := PStr body; output := PNone;
            status_code := status response |}
  else
    match process_response response with
    | Ok output =>
        mret {| response_text := output; output := output;
                status_code := status response |}
    | Raise ConnectionTimeoutError =>
        mret {| response_text := PStr "Connection Timeout"; output := PNone;
                status_code := status response |}
    | Raise e => raise e
    end.

End Client.

(** ** Reading traces *)

(** How many HTTP requests a trace holds. *)
Fixpoint requests (tr : list Event) : nat :=
  match tr with
  | [] => 0
  | EvRequest _ _ :: tr => S (requests tr)
  | _ :: tr => requests tr
  end.

(** The delays slept, in order. *)
Fixpoint sleeps (tr : list Event) : list Q :=
  match tr with
  | [] => []
  | EvSleep d :: tr => d :: sleeps tr
  | _ :: tr => sleeps tr
  end.

(** The responses received, in order. *)
Fixpoint responses (tr : list Event) : list ClientResponse :=
  match tr with
  | [] => []
  | EvRequest _ (Resp r) :: tr => r :: responses tr
  | _ :: tr => responses tr
  end.

(** The last HTTP response observed in a trace. *)
Definition last_response (tr : list Event) : option ClientResponse :=
  last (responses tr).

(** ** A test transport and a small runtime *)

(** Replies are scripted: the n-th request of the run gets the n-th reply,
    and the connection is refused once the script is exhausted. *)
Definition scripted (replies : list Reply) : ClientSession :=
  λ past _, default (NetRaise (OtherError "ClientConnectionError"))
                    (replies !! requests past).

(** A response with a JSON body that names a request. *)
Definition job_response (code : Z) (body : string) : ClientResponse :=
  {| status := code; content_type := "application/json";
     read := Ok body; text := Ok body;
     json := Ok (PDict {[ "reqId" := PStr "job-1" ]}) |}.

Definition sample_archive : ZipArchive :=
  {| namelist := ["a.json"; "image.png"; "video.mp4"];
     zread := λ name,
       if String.eqb name "a.json" then Ok "7"
       else if String.eqb name "image.png" then Ok "PNGDATA"
       else if String.eqb name "video.mp4" then Ok "MP4DATA"
       else Raise (KeyError name) |}.

(** [json.loads] restricted to integer documents, [str()] to scalars, and
    [zipfile] to one known archive. *)
Definition test_runtime : PyRuntime := {|
  py_str v :=
    match v with
    | PStr s => s
    | PInt z => string_of_Z z
    | PNone => "None"
    | _ => "<object>"
    end;
  json_loads s :=
    match NilZero.int_of_string s with
    | Some i => Ok (PInt (Z.of_int i))
    | None => Raise (OtherError "JSONDecodeError")
    end;
  is_zipfile content := String.prefix "PK" content;
  ZipFile content :=
    if String.eqb content "PK:sample" then Ok sample_archive
    else Raise (OtherError "BadZipFile");
|}.

Definition env0 : Env := {| files := ∅; past := [] |}.

(** The answer to an asset creation: an upload URL and an identifier. *)
Definition created_response (asset_id : string) : ClientResponse :=
  {| status := 200; content_type := "application/json";
     read := Ok ""; text := Ok "";
     json := Ok (PDict {[ "uploadUrl" := PStr ("https://upload.example/" +:+ asset_id);
                          "assetId" := PStr asset_id ]}) |}.

(** The answer of the storage to an upload. *)
Definition upload_response (code : Z) (body : string) : ClientResponse :=
  {| status := code; content_type := "text/plain";
     read := Ok body; text := Ok body;
     json := Raise (OtherError "ContentTypeError") |}.

(** Two files on disk.  The upload of the first is refused, the second
    goes through, and the function endpoint would answer 200. *)
Definition two_files : Env :=
  {| files := {[ "a.png" := "PNGDATA"; "b.png" := "PNGDATA" ]}; past := [] |}.

Definition first_upload_refused : ClientSession :=
  scripted [ Resp (created_response "asset-1");
             Resp (upload_response 403 "denied");
             Resp (created_response "asset-2");
             Resp (upload_response 200 "");
             Resp (job_response 200 "7") ].

(** A job that is pending on submission and done, with the JSON document
    [7], at the first poll. *)
Definition done_at_first_poll : ClientSession :=
  scripted [ Resp (job_response 202 ""); Resp (job_response 200 "7") ].

(** A pending job that fails at the second poll. *)
Definition fails_at_second_poll : ClientSession :=
  scripted [ Resp (job_response 202 ""); Resp (job_response 500 "failed") ].

(** A response carrying the sample archive. *)
Definition zip_response : ClientResponse :=
  {| status := 200; content_type := "application/zip";
     read := Ok "PK:sample"; text := Raise (OtherError "UnicodeDecodeError");
     json := Raise (OtherError "ContentTypeError") |}.

(** A server that keeps answering 202. *)
Definition always_pending : ClientSession :=
  λ _ _, Resp (job_response 202 "").

(** How many requests of a trace went to the function endpoint. *)
Fixpoint submissions (tr : list Event) : nat :=
  match tr with
  | [] => 0
  | EvRequest {| url := PStr u |} _ :: tr =>
      if String.eqb u FUNCTION_URL then S (submissions tr) else submissions tr
  | _ :: tr => submissions tr
  end.


(** ** Runs of the polling loop

    The shape every run of [poll_loop] has, whatever the network answers:
    the induction principle behind the facts about polling.  [poll_run]
    relates the loop variables on entry with the loop's outcome and the
    events it caused. *)
Inductive poll_run (max_attempts : Z) (max_backoff : Q)
    : ClientResponse → Z → Q → result (ClientResponse * Z) → list Event → Prop :=
  | run_stop response attempt delay :
      (status response =? 202) && (attempt <? max_attempts) = false →
      poll_run max_attempts max_backoff response attempt delay
               (Ok (response, attempt)) []
  | run_raise_body response attempt delay e :
      (status response =? 202) && (attempt <? max_attempts) = true →
      poll_run max_attempts max_backoff response attempt delay (Raise e) []
  | run_raise_net response attempt delay req e :
      (status response =? 202) && (attempt <? max_attempts) = true →
      poll_run max_attempts max_backoff response attempt delay
               (Raise e) [EvRequest req (NetRaise e)]
  | run_break response attempt delay req response' :
      (status response =? 202) && (attempt <? max_attempts) = true →
      (status response' =? 202) = false →
      poll_run max_attempts max_backoff response attempt delay
               (Ok (response', attempt)) [EvRequest req (Resp response')]
  | run_sleep response attempt delay req response' r tr :
      (status response =? 202) && (attempt <? max_attempts) = true →
      (status response' =? 202) = true →
      (attempt + 1 <? max_attempts) = true →
      poll_run max_attempts max_backoff response' (attempt + 1)
               (Qmin (delay * 2) max_backoff) r tr →
      poll_run max_attempts max_backoff response attempt delay r
               (EvRequest req (Resp response') ::
                EvSleep (Qmin (delay * 2) max_backoff) :: tr)
  | run_spent response attempt delay req response' r tr :
      (status response =? 202) && (attempt <? max_attempts) = true →
      (status response' =? 202) = true →
      (attempt + 1 <? max_attempts) = false →
      poll_run max_attempts max_backoff response' (attempt + 1) delay r tr →
      poll_run max_attempts max_backoff response attempt delay r
               (EvRequest req (Resp response') :: tr).


(** One turn of the loop, spelled out. *)
Ltac poll_turn Hrun :=
  simpl in Hrun;
  unfold mbind, M_bind, lift, request_read, sleep, emit, mret, M_ret in Hrun;
  simpl in Hrun;
  repeat (case_match; simplify_eq; simpl in * ).

(** ** Further vocabulary for the facts below *)

(** A pending response that names its request: what the loop needs to go
    on polling. *)
Definition pending_with_id (r : ClientResponse) : Prop :=
  status r = 202 ∧
  ∃ d id, json r = Ok (PDict d) ∧ d !! "reqId" = Some id.

(** The requests of a trace, in order. *)
Fixpoint sent (tr : list Event) : list Request :=
  match tr with
  | [] => []
  | EvRequest req _ :: tr => req :: sent tr
  | _ :: tr => sent tr
  end.

(** The runs of [_prepare_local_asset_async], case by case. *)
Ltac prepare_cases Hrun :=
  unfold _prepare_local_asset_async, _create_asset_async, _upload_asset_async,
    path_exists, read_file, print, raise in Hrun;
  unfold mbind, M_bind, lift, request_read, emit, mret, M_ret in Hrun;
  simpl in Hrun;
  repeat (case_match; simplify_eq/=); try done.

Section Envelope.
Context `{PyRuntime}.

(** What [api_call_async] makes of the response the polling hands back:
    the last lines of the function, as a value. *)
Definition envelope (response : ClientResponse) : result Result :=
  if negb (status response =? 200)
  then
    body ← text response;
    mret {| response_text := PStr body; output := PNone;
            status_code := status response |}
  else
    match process_response response with
    | Ok output =>
        Ok {| response_text := output; output := output;
              status_code := status response |}
    | Raise ConnectionTimeoutError =>
        Ok {| response_text := PStr "Connection Timeout"; output := PNone;
              status_code := status response |}
    | Raise e => Raise e
    end.

End Envelope.

(** The key under which the loop of [_unpack_zip_response_async] files an
    entry, read off its name: the tests of the loop, in their order. *)
Definition entry_key (name : string) : option string :=
  if endswith name ".json" then Some (drop_last 5 (basename name))
  else if endswith name ".png" then Some "image"
  else if endswith name ".mp4" then Some "video"
  else None.

Section Entries.
Context `{PyRuntime}.

(** The value the loop stores for a recognised entry: the parsed document
    of a [.json] entry, the raw bytes of an image or a video. *)
Definition entry_value (zip_archive : ZipArchive) (name : string) : result pyval :=
  if endswith name ".json"
  then data ← zread zip_archive name; json_loads data
  else data ← zread zip_archive name; mret (PBytes data).

End Entries.

(** A name without a slash. *)
Fixpoint slash_free (s : string) : bool :=
  match s with
  | EmptyString => true
  | String c rest => negb (Ascii.eqb c "/"%char) && slash_free rest
  end.

(** ** Video encoding ([notebook/notebook_utils.py])

    [encode_video] checks its arguments and the frame files before it
    touches the encoder.  What follows the checks drives warp kernels,
    numpy arrays, PIL and the video encoder; it is taken as one step of
    the runtime, [render_frames]. *)

(** [os.path.join] of two components on a POSIX system. *)
Definition path_join (a b : string) : string :=
  if String.prefix "/" b then b
  else if String.eqb a "" || endswith a "/" then a +:+ b
  else a +:+ "/" +:+ b.

Definition normals_path (root_dir camera_name : string) (frame_idx : Z) : string :=
  path_join root_dir
    (camera_name +:+ "_normals_0_" +:+ string_of_Z frame_idx +:+ ".png").

Definition segmentation_path (root_dir camera_name : string) (frame_idx : Z) : string :=
  path_join root_dir
    (camera_name +:+ "_semantic_segmentation_0_" +:+ string_of_Z frame_idx +:+ ".png").

Class VideoRuntime : Type := {
  (** the shading and encoding of the frames, once they are known to exist *)
  render_frames : string → Z → Z → string → string → result unit;
}.

Section Video.
Context `{VideoRuntime}.

(** The first [for frame_idx in range(...)] loop of [encode_video]. *)
Fixpoint check_frames (root_dir camera_name : string) (frame_idx : Z)
    (remaining : nat) : M unit :=
  match remaining with
  | O => mret tt
  | S remaining =>
      let file_path_normals := normals_path root_dir camera_name frame_idx in
      let file_path_segmentation := segmentation_path root_dir camera_name frame_idx in
      normals ← path_exists file_path_normals;
      segmentation ← path_exists file_path_segmentation;
      if negb normals || negb segmentation
      then raise (ValueError ("Missing frame at frame index " +:+
                              string_of_Z frame_idx))
      else check_frames root_dir camera_name (frame_idx + 1) remaining
  end.

Definition encode_video (root_dir : string) (start_frame num_frames : Z)
    (camera_name output_path : string) : M unit :=
  if start_frame <? 0
  then raise (ValueError "start_frame must be non-negative")
  else if num_frames <=? 0
  then raise (ValueError "num_frames must be positive")
  else
    _ ← check_frames root_dir camera_name start_frame (Z.to_nat num_frames);
    lift (render_frames root_dir start_frame num_frames camera_name output_path).

End Video.

(** Both files of a frame are on disk. *)
Definition frame_on_disk (env : Env) (root_dir camera_name : string)
    (frame_idx : Z) : Prop :=
  is_Some (files env !! normals_path root_dir camera_name frame_idx) ∧
  is_Some (files env !! segmentation_path root_dir camera_name frame_idx).

(** ** More test transports and fixtures *)

(** A network that refuses every connection. *)
Definition unreachable : ClientSession := scripted [].

(** A pending response whose JSON body names no request. *)
Definition pending_without_id : ClientResponse :=
  {| status := 202; content_type := "application/json";
     read := Ok ""; text := Ok ""; json := Ok (PDict ∅) |}.

(** The answer to an asset creation that gives an upload URL only. *)
Definition created_without_id : ClientResponse :=
  {| status := 200; content_type := "application/json";
     read := Ok ""; text := Ok "";
     json := Ok (PDict {[ "uploadUrl" := PStr "https://upload.example/asset-1" ]}) |}.

Definition creation_without_id : ClientSession :=
  scripted [ Resp created_without_id ].

(** Both uploads go through and the job is done on submission. *)
Definition both_uploads_accepted : ClientSession :=
  scripted [ Resp (created_response "asset-1"); Resp (upload_response 200 "");
             Resp (created_response "asset-2"); Resp (upload_response 200 "");
             Resp (job_response 200 "7") ].

(** A 200 whose body cannot be read in time. *)
Definition body_timed_out : ClientResponse :=
  {| status := 200; content_type := "application/json";
     read := Raise ConnectionTimeoutError; text := Raise ConnectionTimeoutError;
     json := Raise ConnectionTimeoutError |}.

Definition done_with_slow_body : ClientSession :=
  scripted [ Resp body_timed_out ].

(** An archive whose JSON entry is cut short. *)
Definition truncated_archive : ZipArchive :=
  {| namelist := ["image.png"; "a.json"; "video.mp4"];
     zread := λ name,
       if String.eqb name "a.json" then Ok "{"
       else if String.eqb name "image.png" then Ok "PNGDATA"
       else if String.eqb name "video.mp4" then Ok "MP4DATA"
       else Raise (KeyError name) |}.

Definition truncated_runtime : PyRuntime := {|
  py_str := @py_str test_runtime;
  json_loads := @json_loads test_runtime;
  is_zipfile content := String.prefix "PK" content;
  ZipFile content := Ok truncated_archive;
|}.

(** A renderer that always succeeds, and a directory with frame 0 of
    camera [cam] only. *)
Definition test_video : VideoRuntime :=
  {| render_frames := λ _ _ _ _ _, Ok tt |}.

Definition one_frame : Env :=
  {| files := {[ "frames/cam_normals_0_0.png" := "N0";
                 "frames/cam_semantic_segmentation_0_0.png" := "S0" ]};
     past := [] |}.

(** * Properties *)

Section Facts.
Context `{PyRuntime}.

(** ** Running a bind *)

Lemma bind_run {A B} (m : M A) (f : A → M B) env r tr :
  (m ≫= f) env = Some (r, tr) ↔
  (∃ e, m env = Some (Raise e, tr) ∧ r = Raise e) ∨
  (∃ a es es', m env = Some (Ok a, es) ∧
               f a (advance env es) = Some (r, es') ∧ tr = es ++ es').
Proof.
  unfold mbind, M_bind. split.
  - destruct (m env) as [[[a|e] es]|]; [|naive_solver..].
    destruct (f a (advance env es)) as [[r' es']|] eqn:Hf; [|done].
    intros [= <- <-]. right. eauto 10.
  - intros [(e & -> & ->)|(a & es & es' & -> & -> & ->)]; done.
Qed.

Lemma requests_app tr1 tr2 : requests (tr1 ++ tr2) = (requests tr1 + requests tr2)%nat.
Proof.
  induction tr1 as [|[] tr1 IH]; simpl; [done|..]; by rewrite ?IH.
Qed.

Lemma sleeps_app tr1 tr2 : sleeps (tr1 ++ tr2) = sleeps tr1 ++ sleeps tr2.
Proof.
  induction tr1 as [|[] tr1 IH]; simpl; [done|..]; by rewrite ?IH.
Qed.

Lemma responses_app tr1 tr2 : responses (tr1 ++ tr2) = responses tr1 ++ responses tr2.
Proof.
  induction tr1 as [|[? []| |] tr1 IH]; simpl; [done|..]; by rewrite ?IH.
Qed.

(** ** The polling loop *)

Lemma poll_loop_run fuel session token nvcf_url max_attempts max_backoff
    response attempt delay env r tr :
  poll_loop fuel session token nvcf_url max_attempts max_backoff
            response attempt delay env = Some (r, tr) →
  poll_run max_attempts max_backoff response attempt delay r tr.
Proof.
  revert response attempt delay env r tr.
  induction fuel as [|fuel IH]; intros response attempt delay env r tr Hrun; [done|].
  poll_turn Hrun;
    try match goal with
        | Hrec : poll_loop _ _ _ _ _ _ _ _ _ _ = Some _ |- _ => apply IH in Hrec
        end;
    repeat match goal with
           | Hn : negb _ = true |- _ => apply negb_true_iff in Hn
           | Hn : negb _ = false |- _ => apply negb_false_iff in Hn
           end;
    eauto using poll_run.
Qed.

Lemma poll_loop_total fuel session token nvcf_url max_attempts max_backoff
    response attempt delay env :
  (Z.to_nat (max_attempts - attempt) < fuel)%nat →
  is_Some (poll_loop fuel session token nvcf_url max_attempts max_backoff
                     response attempt delay env).
Proof.
  revert response attempt delay env.
  induction fuel as [|fuel IH]; intros response attempt delay env Hfuel; [lia|].
  simpl.
  destruct ((status response =? 202) && (attempt <? max_attempts)) eqn:Hcond;
    [|by eexists].
  apply andb_true_iff in Hcond as [_ Hlt%Z.ltb_lt].
  unfold mbind, M_bind, lift, request_read, sleep, emit, mret, M_ret; simpl.
  repeat (case_match; simplify_eq; simpl in * ); try by eexists.
  all: match goal with
       | Hrec : poll_loop _ _ _ _ _ _ ?resp ?att ?d ?e = None |- _ =>
           destruct (IH resp att d e) as [? Hsome]; [lia|congruence]
       end.
Qed.

Lemma poll_response_run session response token nvcf_url initial_delay
    max_attempts max_backoff env r tr :
  _poll_response_async session response token nvcf_url initial_delay
                       max_attempts max_backoff env = Some (r, tr) ↔
  ∃ r0, poll_loop (S (Z.to_nat max_attempts)) session token nvcf_url
                  max_attempts max_backoff response 0 initial_delay env
        = Some (r0, tr) ∧
        r = match r0 with
            | Ok (response', attempt) =>
                if max_attempts <=? attempt
                then Raise (TimeoutError "Maximum polling attempts reached")
                else Ok response'
            | Raise e => Raise e
            end.
Proof.
  unfold _poll_response_async, mbind, M_bind.
  destruct (poll_loop _ _ _ _ _ _ _ _ _ _) as [[[[response' attempt]|e] es]|].
  - unfold raise, mret, M_ret.
    destruct (max_attempts <=? attempt) eqn:Hle; rewrite app_nil_r.
    + split.
      * intros [= <- <-]. eexists. split; [done|]. simpl. by rewrite Hle.
      * intros (r0 & [= <- <-] & ->). simpl. by rewrite Hle.
    + split.
      * intros [= <- <-]. eexists. split; [done|]. simpl. by rewrite Hle.
      * intros (r0 & [= <- <-] & ->). simpl. by rewrite Hle.
  - split; [intros [= <- <-]; eauto|]. by intros (r0 & [= <- <-] & ->).
  - split; [done|]. by intros (r0 & [=] & _).
Qed.

Lemma poll_response_total session response token nvcf_url initial_delay
    max_attempts max_backoff env :
  is_Some (_poll_response_async session response token nvcf_url initial_delay
                                max_attempts max_backoff env).
Proof.
  destruct (poll_loop_total (S (Z.to_nat max_attempts)) session token nvcf_url
              max_attempts max_backoff response 0 initial_delay env)
    as [[r0 tr] Hrun]; [lia|].
  eexists (_, tr). apply poll_response_run. eauto.
Qed.

(** Once the budget is spent the loop is left at once. *)
Lemma poll_run_spent max_attempts max_backoff response attempt delay r tr :
  poll_run max_attempts max_backoff response attempt delay r tr →
  max_attempts ≤ attempt →
  r = Ok (response, attempt) ∧ tr = [].
Proof.
  intros Hrun Hle.
  destruct Hrun as [| | | | |]; [done|..];
    match goal with
    | Hc : _ && (_ <? _) = true |- _ =>
        apply andb_true_iff in Hc as [_ Hlt%Z.ltb_lt]; lia
    end.
Qed.

Lemma poll_run_requests max_attempts max_backoff response attempt delay r tr :
  poll_run max_attempts max_backoff response attempt delay r tr →
  (requests tr ≤ Z.to_nat (max_attempts - attempt))%nat.
Proof.
  induction 1 as [| | ? ? ? ? ? Hc| ? ? ? ? ? Hc _
                  | ? ? ? ? ? ? ? Hc _ _ _ IH | ? ? ? ? ? ? ? Hc _ _ _ IH];
    try (apply andb_true_iff in Hc as [_ Hlt%Z.ltb_lt]);
    cbn in *; lia.
Qed.

(** A poll answered by anything but 202 ends the run, with that response. *)
Lemma poll_run_exit max_attempts max_backoff response attempt delay r tr
    pre req response' post :
  poll_run max_attempts max_backoff response attempt delay r tr →
  tr = pre ++ EvRequest req (Resp response') :: post →
  status response' ≠ 202 →
  post = [] ∧ ∃ attempt', r = Ok (response', attempt') ∧ attempt' < max_attempts.
Proof.
  intros Hrun. revert pre.
  induction Hrun as [| | | ? ? ? ? ? Hc Hs
                     | ? ? ? ? ? ? ? Hc Hs _ _ IH | ? ? ? ? ? ? ? Hc Hs _ _ IH];
    intros pre Htr Hne.
  - by destruct pre.
  - by destruct pre.
  - destruct pre as [|? [|]]; simplify_eq/=.
  - destruct pre as [|? [|]]; simplify_eq/=.
    apply andb_true_iff in Hc as [_ Hlt%Z.ltb_lt]. eauto.
  - destruct pre as [|? [|? pre]]; simplify_eq/=.
    + apply Z.eqb_eq in Hs. done.
    + by eapply IH.
  - destruct pre as [|? pre]; simplify_eq/=.
    + apply Z.eqb_eq in Hs. done.
    + by eapply IH.
Qed.

(** What the loop hands back is the response seen last, and it is no longer
    pending unless the budget is spent. *)
Lemma poll_run_ok max_attempts max_backoff response attempt delay tr
    response' attempt' :
  poll_run max_attempts max_backoff response attempt delay
           (Ok (response', attempt')) tr →
  (attempt' < max_attempts → status response' ≠ 202) ∧
  (tr = [] ∧ response' = response ∨ last_response tr = Some response').
Proof.
  intros Hrun.
  remember (Ok (response', attempt')) as r eqn:Hr.
  induction Hrun as [? ? ? Hc| | | ? ? ? ? ? Hc Hs
                     | ? ? ? ? ? ? ? Hc Hs _ Hrun IH
                     | ? ? ? ? ? ? ? Hc Hs _ Hrun IH];
    simplify_eq.
  - split; [|by left]. intros Hlt Hst.
    apply andb_false_iff in Hc as [Hc%Z.eqb_neq|Hc%Z.ltb_ge]; [done|lia].
  - split; [|by right]. intros _. by apply Z.eqb_neq.
  - destruct IH as [Hst Hlast]; [done|]. split; [done|]. right.
    destruct Hlast as [[-> ->]|Hlast]; [done|].
    unfold last_response in *. simpl.
    destruct (responses tr); [done|]. done.
  - destruct IH as [Hst Hlast]; [done|]. split; [done|]. right.
    destruct Hlast as [[-> ->]|Hlast]; [done|].
    unfold last_response in *. simpl.
    destruct (responses tr); [done|]. done.
Qed.





(** With every response pending and the budget used up, the loop ends with
    the budget spent. *)
Lemma poll_run_all_pending max_attempts max_backoff response attempt delay r tr :
  poll_run max_attempts max_backoff response attempt delay r tr →
  Forall (λ x, status x = 202) (responses tr) →
  length (responses tr) = Z.to_nat (max_attempts - attempt) →
  ∃ response' attempt', r = Ok (response', attempt') ∧ max_attempts ≤ attempt'.
Proof.
  induction 1 as [? ? ? Hc| ? ? ? ? Hc| ? ? ? ? ? Hc| ? ? ? ? ? Hc Hs
                  | ? ? ? ? ? ? ? Hc Hs Hlt Hrun IH
                  | ? ? ? ? ? ? ? Hc Hs Hlt Hrun IH];
    simpl; intros Hall Hlen.
  - apply andb_false_iff in Hc as [Hc|Hc%Z.ltb_ge]; [|eauto].
    destruct (decide (max_attempts ≤ attempt)); [eauto|lia].
  - apply andb_true_iff in Hc as [_ Hc%Z.ltb_lt]. lia.
  - apply andb_true_iff in Hc as [_ Hc%Z.ltb_lt]. lia.
  - apply Forall_cons in Hall as [Hst _]. apply Z.eqb_neq in Hs. done.
  - apply Forall_cons in Hall as [_ Hall]. apply IH; [done|].
    apply Z.ltb_lt in Hlt. lia.
  - apply Z.ltb_ge in Hlt.
    destruct (poll_run_spent _ _ _ _ _ _ _ Hrun) as [-> ->]; [lia|].
    eexists _, _. split; [done|lia].
Qed.

(** Conversely, a loop that ends with the budget spent saw only pending
    responses, as many as the budget allows. *)
Lemma poll_run_budget_spent max_attempts max_backoff response attempt delay tr
    response' attempt' :
  poll_run max_attempts max_backoff response attempt delay
           (Ok (response', attempt')) tr →
  max_attempts ≤ attempt' →
  attempt < max_attempts →
  status response = 202 ∧
  Forall (λ x, status x = 202) (responses tr) ∧
  length (responses tr) = Z.to_nat (max_attempts - attempt).
Proof.
  intros Hrun.
  remember (Ok (response', attempt')) as r eqn:Hr.
  induction Hrun as [? ? ? Hc| | | ? ? ? ? ? Hc Hs
                     | ? ? ? ? ? ? ? Hc Hs Hlt Hrun IH
                     | ? ? ? ? ? ? ? Hc Hs Hlt Hrun IH];
    intros Hle Hatt; simplify_eq/=; try lia.
  - apply andb_true_iff in Hc as [Hc%Z.eqb_eq _].
    apply Z.ltb_lt in Hlt. apply Z.eqb_eq in Hs.
    destruct IH as (_ & Hall & Hlen); [done..|].
    split; [done|]. split; [by constructor|]. lia.
  - apply andb_true_iff in Hc as [Hc%Z.eqb_eq _].
    apply Z.ltb_ge in Hlt. apply Z.eqb_eq in Hs.
    destruct (poll_run_spent _ _ _ _ _ _ _ Hrun) as [_ ->]; [lia|].
    split; [done|]. split; [by repeat constructor|]. simpl. lia.
Qed.

Lemma responses_split tr x :
  x ∈ responses tr → ∃ pre req post, tr = pre ++ EvRequest req (Resp x) :: post.
Proof.
  induction tr as [|ev tr IH]; simpl; [by intros ?%elem_of_nil|].
  destruct ev as [req [r|e]|d|line]; simpl.
  - intros [->|Hin]%elem_of_cons; [by eexists [], _, _|].
    destruct (IH Hin) as (pre & req' & post & ->).
    by eexists (_ :: pre), _, _.
  - intros Hin. destruct (IH Hin) as (pre & req' & post & ->).
    by eexists (_ :: pre), _, _.
  - intros Hin. destruct (IH Hin) as (pre & req' & post & ->).
    by eexists (_ :: pre), _, _.
  - intros Hin. destruct (IH Hin) as (pre & req' & post & ->).
    by eexists (_ :: pre), _, _.
Qed.

(** ** Polling: budget, exit, timeout and backoff *)

(** C1. Whatever the first response and the configuration, a call of
    [_poll_response_async] ends, sends at most [max_attempts] status polls
    (a negative budget counts as none), and a poll answered with a status
    other than 202 is the last event of the run: the call returns that
    response, with no poll and no sleep after it. *)
Theorem poll_bounded_and_exits_on_terminal session response token nvcf_url
    initial_delay max_attempts max_backoff env :
  ∃ r tr,
    _poll_response_async session response token nvcf_url initial_delay
                         max_attempts max_backoff env = Some (r, tr) ∧
    (requests tr ≤ Z.to_nat max_attempts)%nat ∧
    ∀ pre req response' post,
      tr = pre ++ EvRequest req (Resp response') :: post →
      status response' ≠ 202 →
      post = [] ∧ r = Ok response'.
Proof.
  destruct (poll_response_total session response token nvcf_url initial_delay
              max_attempts max_backoff env) as [[r tr] Hrun].
  exists r, tr. split; [done|].
  apply poll_response_run in Hrun as (r0 & Hloop%poll_loop_run & ->).
  split.
  - apply poll_run_requests in Hloop. by rewrite Z.sub_0_r in Hloop.
  - intros pre req response' post Htr Hne.
    destruct (poll_run_exit _ _ _ _ _ _ _ _ _ _ _ Hloop Htr Hne)
      as (-> & attempt' & -> & Hlt).
    split; [done|]. by apply Z.leb_gt in Hlt as ->.
Qed.

(** When every response seen was pending and the whole budget of polls was
    used, the call raises the timeout error; the trace is the whole run, so
    nothing is polled afterwards. *)
Lemma poll_timeout_when_all_pending session response token nvcf_url
    initial_delay max_attempts max_backoff env r tr :
  _poll_response_async session response token nvcf_url initial_delay
                       max_attempts max_backoff env = Some (r, tr) →
  Forall (λ x, status x = 202) (responses tr) →
  length (responses tr) = Z.to_nat max_attempts →
  r = Raise (TimeoutError "Maximum polling attempts reached") ∧
  requests tr = Z.to_nat max_attempts.
Proof.
  intros (r0 & Hloop%poll_loop_run & ->)%poll_response_run Hall Hlen.
  destruct (poll_run_all_pending _ _ _ _ _ _ _ Hloop Hall)
    as (response' & attempt' & -> & Hle); [by rewrite Z.sub_0_r|].
  split; [by apply Z.leb_le in Hle as ->|].
  apply poll_run_requests in Hloop. rewrite Z.sub_0_r in Hloop.
  assert (length (responses tr) ≤ requests tr)%nat; [|lia].
  clear. induction tr as [|[? []| |] tr IH]; simpl; lia.
Qed.

(** With a budget of at least one poll, a response that is not pending,
    be it the first one or the answer to a poll, makes the call return. *)
Lemma poll_returns_after_terminal session response token nvcf_url
    initial_delay max_attempts max_backoff env r tr :
  0 < max_attempts →
  _poll_response_async session response token nvcf_url initial_delay
                       max_attempts max_backoff env = Some (r, tr) →
  status response ≠ 202 ∨ Exists (λ x, status x ≠ 202) (responses tr) →
  ∃ response', r = Ok response' ∧ status response' ≠ 202.
Proof.
  intros Hpos (r0 & Hloop%poll_loop_run & ->)%poll_response_run [Hne|Hex].
  - inversion Hloop as [? ? ? Hc| ? ? ? ? Hc| ? ? ? ? ? Hc| ? ? ? ? ? Hc _
                        | ? ? ? ? ? ? ? Hc| ? ? ? ? ? ? ? Hc]; subst;
      try (apply andb_true_iff in Hc as [Hc%Z.eqb_eq _]; done).
    exists response. split; [|done]. by apply Z.leb_gt in Hpos as ->.
  - apply Exists_exists in Hex as (x & Hin & Hne).
    apply responses_split in Hin as (pre & req & post & Htr).
    destruct (poll_run_exit _ _ _ _ _ _ _ _ _ _ _ Hloop Htr Hne)
      as (_ & attempt' & -> & Hlt).
    exists x. split; [|done]. by apply Z.leb_gt in Hlt as ->.
Qed.

(** With a budget of at least one poll, the loop is left with the budget
    spent only after a pending first response and as many pending polls as
    the budget allows. *)
Lemma poll_budget_spent_only_when_all_pending fuel session token nvcf_url
    initial_delay max_attempts max_backoff response env response' attempt' tr :
  0 < max_attempts →
  poll_loop fuel session token nvcf_url max_attempts max_backoff
            response 0 initial_delay env = Some (Ok (response', attempt'), tr) →
  max_attempts ≤ attempt' →
  status response = 202 ∧
  Forall (λ x, status x = 202) (responses tr) ∧
  length (responses tr) = Z.to_nat max_attempts.
Proof.
  intros Hpos Hloop%poll_loop_run Hle.
  destruct (poll_run_budget_spent _ _ _ _ _ _ _ _ Hloop Hle Hpos)
    as (Hfirst & Hall & Hlen).
  by rewrite Z.sub_0_r in Hlen.
Qed.

(** C10. With [max_attempts = 0] the call raises the timeout error for
    every first response, pending or not, and sends nothing: the loop is
    not entered and the final check compares the counter, still 0, with the
    budget. *)
Theorem poll_zero_budget_always_times_out session response token nvcf_url
    initial_delay max_backoff env :
  _poll_response_async session response token nvcf_url initial_delay
                       0 max_backoff env
  = Some (Raise (TimeoutError "Maximum polling attempts reached"), []).
Proof.
  unfold _poll_response_async. simpl.
  unfold mbind, M_bind. by rewrite andb_false_r.
Qed.


(** ** Request formation *)

Lemma str_items_strings (ids : list string) : str_items (PStr <$> ids) = Ok ids.
Proof.
  induction ids as [|id ids IH]; [done|].
  rewrite fmap_cons. cbn [str_items]. by rewrite IH.
Qed.

Lemma str_items_none items : PNone ∈ items → str_items items = Raise TypeError.
Proof.
  induction items as [|item items IH]; [by intros ?%elem_of_nil|].
  intros [<-|Hin]%elem_of_cons; [done|].
  destruct item; simpl; try done. by rewrite IH.
Qed.

(** A missing identifier among the asset names makes the join, and with it
    the request formation, raise. *)
Lemma format_request_rejects_none command token asset_names :
  PNone ∈ asset_names →
  _format_request command token asset_names = Raise TypeError.
Proof.
  intros Hin. unfold _format_request.
  destruct asset_names as [|item items]; [by apply elem_of_nil in Hin|].
  simpl length. change (0 <? S (length items))%nat with true. cbv iota.
  unfold str_join. by rewrite (str_items_none _ Hin).
Qed.

(** C9. For every command, token and list of asset identifiers,
    [_format_request] returns headers with the bearer authorization, the
    JSON content type and the poll-timeout hint, with the comma-joined
    asset-reference header exactly when there are identifiers, and a body
    whose inputs are the entry of the command followed, in order, by one
    entry per identifier, named by its position and carrying it as data. *)
Theorem format_request_shape command token (ids : list string) :
  ∃ inputs headers,
    _format_request command token (PStr <$> ids)
    = Ok (PDict {[ "inputs" := PList inputs ]}, headers) ∧
    headers !! "Authorization" = Some ("Bearer " +:+ token) ∧
    headers !! "Content-Type" = Some "application/json" ∧
    headers !! "NVCF-POLL-SECONDS" = Some "3600" ∧
    headers !! "NVCF-INPUT-ASSET-REFERENCES"
    = (if ids is [] then None else Some (String.concat "," ids)) ∧
    length inputs = S (length ids) ∧
    (∃ entry, inputs !! 0%nat = Some (PDict entry) ∧
              entry !! "name" = Some (PStr "command") ∧
              entry !! "data" = Some (PList [PStr command])) ∧
    (∀ i id, ids !! i = Some id →
       ∃ entry, inputs !! S i = Some (PDict entry) ∧
                entry !! "name" = Some (PStr ("image_assetId_" +:+ string_of_nat i)) ∧
                entry !! "data" = Some (PList [PStr id])).
Proof.
  unfold _format_request.
  assert (Hhdr : ∃ headers,
    (if (0 <? length (PStr <$> ids))%nat
     then refs ← str_join "," (PStr <$> ids);
          mret (<["NVCF-INPUT-ASSET-REFERENCES" := refs]>
                  ({[ "Authorization" := "Bearer " +:+ token;
                      "Content-Type" := "application/json";
                      "NVCF-POLL-SECONDS" := "3600" ]} : gmap string string))
     else mret ({[ "Authorization" := "Bearer " +:+ token;
                   "Content-Type" := "application/json";
                   "NVCF-POLL-SECONDS" := "3600" ]} : gmap string string))
    = Ok headers ∧
    headers !! "Authorization" = Some ("Bearer " +:+ token) ∧
    headers !! "Content-Type" = Some "application/json" ∧
    headers !! "NVCF-POLL-SECONDS" = Some "3600" ∧
    headers !! "NVCF-INPUT-ASSET-REFERENCES"
    = (if ids is [] then None else Some (String.concat "," ids))).
  { destruct ids as [|id ids].
    - eexists. split; [reflexivity|]. by repeat split.
    - change (0 <? length (PStr <$> id :: ids))%nat with true. cbv iota.
      unfold str_join. rewrite (str_items_strings (id :: ids)).
      eexists. split; [reflexivity|]. by repeat split. }
  destruct Hhdr as (headers & -> & Hauth & Hct & Hpoll & Hrefs).
  eexists _, headers. split; [reflexivity|].
  repeat (split; [done|]). split; [|split].
  - rewrite length_app, length_imap, length_fmap. done.
  - eexists. split; [reflexivity|]. by split.
  - intros i id Hi. simpl.
    rewrite list_lookup_imap, list_lookup_fmap, Hi. simpl.
    eexists. split; [reflexivity|]. by split.
Qed.

(** ** Decoding *)

(** C7. A response whose declared content type is neither
    [application/json] nor [application/zip], such as [text/plain], is not
    decoded: [process_response] raises the unsupported-format error, a
    [ValueError] naming the content type. *)
Theorem process_response_unsupported response :
  content_type response ≠ "application/json" →
  content_type response ≠ "application/zip" →
  process_response response
  = Raise (ValueError ("Unsupported content type: " +:+ content_type response)).
Proof.
  intros Hjson%String.eqb_neq Hzip%String.eqb_neq.
  unfold process_response. by rewrite Hjson, Hzip.
Qed.

Lemma permutation_of_three {A} (a b c : A) (l : list A) :
  l ≡ₚ [a; b; c] →
  l = [a; b; c] ∨ l = [a; c; b] ∨ l = [b; a; c] ∨
  l = [b; c; a] ∨ l = [c; a; b] ∨ l = [c; b; a].
Proof.
  intros (l1 & l2 & -> & Hrest)%Permutation_cons_inv_r.
  apply Permutation_length_2_inv in Hrest.
  destruct Hrest as [Hrest|Hrest];
    destruct l1 as [|x [|y [|z l1]]]; simplify_eq/=; auto 10.
Qed.

(** C6. Decoding a well-formed archive whose entries are [a.json],
    [image.png] and [video.mp4], in any order, yields a mapping with
    exactly the keys [a], [image] and [video]: at [a] the JSON value the
    entry parses to, at [image] and [video] the raw bytes of the entries. *)
Theorem unpack_zip_roundtrip response content archive a_text a_value image video :
  read response = Ok content →
  is_zipfile content = true →
  ZipFile content = Ok archive →
  namelist archive ≡ₚ ["a.json"; "image.png"; "video.mp4"] →
  zread archive "a.json" = Ok a_text →
  json_loads a_text = Ok a_value →
  zread archive "image.png" = Ok image →
  zread archive "video.mp4" = Ok video →
  ∃ out : gmap string pyval,
    _unpack_zip_response_async response = Ok out ∧
    dom out = {[ "a"; "image"; "video" ]} ∧
    out !! "a" = Some a_value ∧
    out !! "image" = Some (PBytes image) ∧
    out !! "video" = Some (PBytes video).
Proof.
  intros Hread Hzip Hopen Hnames Ha Hjson Himage Hvideo.
  exists {[ "a" := a_value; "image" := PBytes image; "video" := PBytes video ]}.
  split; [|split; [|done]].
  - unfold _unpack_zip_response_async. rewrite Hread. simpl.
    rewrite Hzip. simpl. rewrite Hopen. simpl.
    destruct (permutation_of_three _ _ _ _ Hnames)
      as [-> | [-> | [-> | [-> | [-> | ->]]]]];
      simpl; rewrite ?Ha, ?Himage, ?Hvideo; simpl; rewrite ?Hjson; simpl;
      rewrite ?Ha, ?Himage, ?Hvideo; simpl; rewrite ?Hjson; simpl;
      rewrite ?Ha, ?Himage, ?Hvideo; simpl; rewrite ?Hjson; simpl;
      f_equal; apply map_eq; intros k;
      repeat (rewrite lookup_insert; case_decide; simplify_eq; try done).
  - rewrite !dom_insert_L, dom_singleton_L. set_solver.
Qed.

(** ** The orchestrator *)

Lemma lift_run {A} (x : result A) env r tr :
  lift x env = Some (r, tr) → r = x ∧ tr = [].
Proof. by intros [= <- <-]. Qed.

Lemma request_run session req env response tr :
  request session req env = Some (Ok response, tr) →
  tr = [EvRequest req (Resp response)].
Proof. unfold request. by destruct (session _ _); intros [= <- <-]. Qed.

(** ** Asset upload *)

(** C8. For a path with no file behind it, [_prepare_local_asset_async]
    raises the not-found error at once: the run has no event, so neither
    the asset creation nor the upload was requested. *)
Theorem prepare_missing_path_fails_fast session token asset_name filepath
    nvcf_url env :
  files env !! filepath = None →
  _prepare_local_asset_async session token asset_name filepath nvcf_url env
  = Some (Raise (FileNotFoundError (filepath +:+ " not found")), []).
Proof.
  intros Hnone. unfold _prepare_local_asset_async, mbind, M_bind, path_exists.
  rewrite Hnone. simpl. by rewrite orb_true_r.
Qed.

(** A refused upload does not raise: the uploader prints the failure and
    returns [None] in place of the identifier. *)
Lemma prepare_upload_refused session token asset_name filepath nvcf_url env
    r tr created uploaded body :
  _prepare_local_asset_async session token asset_name filepath nvcf_url env
  = Some (r, tr) →
  responses tr = [created; uploaded] →
  status uploaded ≠ 200 →
  text uploaded = Ok body →
  r = Ok PNone ∧
  last tr = Some (EvPrint ("Image upload failed with status code " +:+
                           string_of_Z (status uploaded) +:+ ": " +:+ body +:+ ".")).
Proof.
  intros Hrun Hresp Hne Htext.
  unfold _prepare_local_asset_async, _create_asset_async, _upload_asset_async,
    path_exists, read_file, print, raise in Hrun.
  unfold mbind, M_bind, lift, request_read, emit, mret, M_ret in Hrun.
  simpl in Hrun.
  repeat (case_match; simplify_eq/=); try done;
    repeat match goal with
           | Hn : negb _ = false |- _ => apply negb_false_iff, Z.eqb_eq in Hn
           end;
    try done; split; congruence.
Qed.

(** The orchestrator does not skip a missing identifier: once an upload
    has been refused the request formation raises, and the call ends where
    the uploads ended, with nothing submitted. *)
Lemma api_call_aborts_on_missing_asset session token params filepaths nvcf_url
    env asset_names tr :
  upload_assets session token nvcf_url filepaths [] env = Some (Ok asset_names, tr) →
  PNone ∈ asset_names →
  api_call_async session token params filepaths nvcf_url env
  = Some (Raise TypeError, tr).
Proof.
  intros Hup Hin. unfold api_call_async, mbind at 1, M_bind at 1. rewrite Hup.
  unfold mbind, M_bind, lift.
  rewrite (format_request_rejects_none _ _ _ Hin). by rewrite app_nil_r.
Qed.

(** ** Every call ends *)

Lemma bind_total {A B} (m : M A) (f : A → M B) env :
  is_Some (m env) → (∀ a env', is_Some (f a env')) → is_Some ((m ≫= f) env).
Proof.
  intros [[[a|e] es] Hm] Hf; unfold mbind, M_bind; rewrite Hm; [|by eexists].
  destruct (Hf a (advance env es)) as [[r es'] ->]. by eexists.
Qed.

Lemma prepare_total session token asset_name filepath nvcf_url env :
  is_Some (_prepare_local_asset_async session token asset_name filepath
                                      nvcf_url env).
Proof.
  unfold _prepare_local_asset_async, _create_asset_async, _upload_asset_async,
    path_exists, read_file, print, raise.
  unfold mbind, M_bind, lift, request_read, emit, mret, M_ret. simpl.
  repeat (case_match; simplify_eq/=); by eexists.
Qed.

Lemma upload_assets_total session token nvcf_url filepaths asset_names env :
  is_Some (upload_assets session token nvcf_url filepaths asset_names env).
Proof.
  revert asset_names env.
  induction filepaths as [|filepath rest IH]; intros asset_names env; simpl.
  - by eexists.
  - apply bind_total; [apply prepare_total|]. intros asset env'. apply IH.
Qed.

(** [api_call_async] always ends, with a [Result] or with an exception. *)
Lemma api_call_total session token params filepaths nvcf_url env :
  is_Some (api_call_async session token params filepaths nvcf_url env).
Proof.
  unfold api_call_async.
  apply bind_total; [apply upload_assets_total|]. intros asset_names env1.
  apply bind_total; [by eexists|]. intros [request_body headers] env2.
  apply bind_total.
  { unfold request. destruct (session _ _); by eexists. }
  intros response env3.
  apply bind_total; [apply poll_response_total|]. intros response' env4.
  destruct (negb (status response' =? 200)).
  - apply bind_total; [by eexists|]. intros body env5. by eexists.
  - destruct (process_response response') as [out|[]]; by eexists.
Qed.

(** ** More on polling *)

Lemma poll_run_net max_attempts max_backoff response attempt delay r tr
    pre req e post :
  poll_run max_attempts max_backoff response attempt delay r tr →
  tr = pre ++ EvRequest req (NetRaise e) :: post →
  post = [] ∧ r = Raise e.
Proof.
  intros Hrun. revert pre.
  induction Hrun as [| | | | ? ? ? ? ? ? ? _ _ _ _ IH
                     | ? ? ? ? ? ? ? _ _ _ _ IH];
    intros pre Htr.
  - by destruct pre.
  - by destruct pre.
  - destruct pre as [|? [|]]; simplify_eq/=. done.
  - destruct pre as [|? [|]]; simplify_eq/=.
  - destruct pre as [|? [|? pre]]; simplify_eq/=. by eapply IH.
  - destruct pre as [|? pre]; simplify_eq/=. by eapply IH.
Qed.

Lemma poll_run_sleeps_bound max_attempts max_backoff response attempt delay r tr :
  poll_run max_attempts max_backoff response attempt delay r tr →
  Forall (λ d, (d <= max_backoff)%Q) (sleeps tr) ∧
  (length (sleeps tr) ≤ Z.to_nat (max_attempts - attempt - 1))%nat.
Proof.
  induction 1 as [| | | | ? ? ? ? ? ? ? _ _ Hlt _ [IHall IHlen]
                  | ? ? ? ? ? ? ? _ _ Hlt Hrun _]; simpl;
    try (split; [by constructor|lia]).
  - split; [|lia]. constructor; [apply Q.le_min_r|done].
  - apply Z.ltb_ge in Hlt.
    destruct (poll_run_spent _ _ _ _ _ _ _ Hrun) as [_ ->]; [lia|].
    split; [constructor|simpl; lia].
Qed.

(** X1. With a budget of at least one poll, a first response that is not
    pending is handed back as it is: nothing is requested and nothing is
    slept. *)
Theorem poll_terminal_first_response_returned session response token nvcf_url
    initial_delay max_attempts max_backoff env :
  0 < max_attempts →
  status response ≠ 202 →
  _poll_response_async session response token nvcf_url initial_delay
                       max_attempts max_backoff env
  = Some (Ok response, []).
Proof.
  intros Hpos%Z.leb_gt Hne%Z.eqb_neq.
  unfold _poll_response_async. cbn [poll_loop]. rewrite Hne. simpl.
  unfold mbind, M_bind, mret, M_ret. simpl. by rewrite Hpos.
Qed.

(** X2. A poll that fails on the network ends the run: the failed request
    is the last event, there is no retry, and the call raises the very
    exception of the transport. *)
Theorem poll_network_failure_propagates session response token nvcf_url
    initial_delay max_attempts max_backoff env r tr pre req e post :
  _poll_response_async session response token nvcf_url initial_delay
                       max_attempts max_backoff env = Some (r, tr) →
  tr = pre ++ EvRequest req (NetRaise e) :: post →
  post = [] ∧ r = Raise e.
Proof.
  intros (r0 & Hloop%poll_loop_run & ->)%poll_response_run Htr.
  by destruct (poll_run_net _ _ _ _ _ _ _ _ _ _ _ Hloop Htr) as [-> ->].
Qed.

(** X3. A pending first response whose JSON body has no [reqId] cannot be
    polled: with a budget of at least one poll the call raises [KeyError]
    for that key before any request is sent. *)
Theorem poll_missing_request_id session response token nvcf_url
    initial_delay max_attempts max_backoff env d :
  0 < max_attempts →
  status response = 202 →
  json response = Ok (PDict d) →
  d !! "reqId" = None →
  _poll_response_async session response token nvcf_url initial_delay
                       max_attempts max_backoff env
  = Some (Raise (KeyError "reqId"), []).
Proof.
  intros Hpos%Z.ltb_lt Hst%Z.eqb_eq Hjson Hkey.
  unfold _poll_response_async. cbn [poll_loop]. rewrite Hst, Hpos. simpl.
  unfold mbind, M_bind, lift. rewrite Hjson. simpl. by rewrite Hkey.
Qed.

(** X4. No sleep of a run lasts longer than [max_backoff], and a run
    sleeps at most [max_attempts - 1] times: never after the last poll the
    budget allows. *)
Theorem poll_sleeps_bounded session response token nvcf_url initial_delay
    max_attempts max_backoff env r tr :
  _poll_response_async session response token nvcf_url initial_delay
                       max_attempts max_backoff env = Some (r, tr) →
  Forall (λ d, (d <= max_backoff)%Q) (sleeps tr) ∧
  (length (sleeps tr) ≤ Z.to_nat (max_attempts - 1))%nat.
Proof.
  intros (r0 & Hloop%poll_loop_run & ->)%poll_response_run.
  apply poll_run_sleeps_bound in Hloop as [Hall Hlen].
  split; [done|]. by rewrite Z.sub_0_r in Hlen.
Qed.

Lemma default_last_response_cons response req r tr :
  default response (last_response (EvRequest req (Resp r) :: tr))
  = default r (last_response tr).
Proof.
  unfold last_response. simpl. rewrite last_cons. by destruct (last _).
Qed.

Lemma poll_loop_request fuel session token nvcf_url max_attempts max_backoff
    response attempt delay env r tr pre req rep post :
  poll_loop fuel session token nvcf_url max_attempts max_backoff
            response attempt delay env = Some (r, tr) →
  tr = pre ++ EvRequest req rep :: post →
  ∃ j id,
    json (default response (last_response pre)) = Ok j ∧
    getitem j "reqId" = Ok id ∧
    req = {| meth := GET;
             url := PStr (nvcf_url +:+ "/exec/status/" +:+ py_str id);
             headers := {[ "Authorization" := "Bearer " +:+ token ]};
             payload := NoBody |}.
Proof.
  revert response attempt delay env r tr pre.
  induction fuel as [|fuel IH];
    intros response attempt delay env r tr pre Hrun Htr; [done|].
  poll_turn Hrun.
  - destruct pre as [|? [|]]; simplify_eq/=. eauto.
  - destruct pre as [|? [|? pre]]; simplify_eq/=; [eauto|].
    rewrite default_last_response_cons. change (EvSleep ?d :: pre) with ([EvSleep d] ++ pre).
    unfold last_response. rewrite responses_app. simpl.
    by eapply IH.
  - destruct pre as [|? pre]; simplify_eq/=; [eauto|].
    rewrite default_last_response_cons. by eapply IH.
  - destruct pre as [|? [|]]; simplify_eq/=. eauto.
  - destruct pre as [|? [|]]; simplify_eq/=. eauto.
  - by destruct pre.
  - by destruct pre.
  - by destruct pre.
Qed.

(** X5. Every request a run of [_poll_response_async] sends is a [GET] of
    the status endpoint, authorized with the bearer token and without a
    body, and it asks for the request id named by the response seen last:
    the first response for the first poll, the previous poll's answer for
    each later one. *)
Theorem poll_requests_follow_request_id session response token nvcf_url
    initial_delay max_attempts max_backoff env r tr pre req rep post :
  _poll_response_async session response token nvcf_url initial_delay
                       max_attempts max_backoff env = Some (r, tr) →
  tr = pre ++ EvRequest req rep :: post →
  ∃ j id,
    json (default response (last_response pre)) = Ok j ∧
    getitem j "reqId" = Ok id ∧
    req = {| meth := GET;
             url := PStr (nvcf_url +:+ "/exec/status/" +:+ py_str id);
             headers := {[ "Authorization" := "Bearer " +:+ token ]};
             payload := NoBody |}.
Proof.
  intros (r0 & Hloop & ->)%poll_response_run Htr.
  by eapply poll_loop_request.
Qed.

Lemma poll_loop_all_pending fuel session token nvcf_url max_attempts max_backoff
    response attempt delay env :
  (∀ past req, ∃ r, session past req = Resp r ∧ (∃ body, read r = Ok body) ∧
                    pending_with_id r) →
  pending_with_id response →
  (Z.to_nat (max_attempts - attempt) < fuel)%nat →
  ∃ response' tr,
    poll_loop fuel session token nvcf_url max_attempts max_backoff
              response attempt delay env
    = Some (Ok (response', Z.max attempt max_attempts), tr) ∧
    requests tr = Z.to_nat (max_attempts - attempt) ∧
    length (sleeps tr) = Z.to_nat (max_attempts - attempt - 1).
Proof.
  intros Hserver. revert response attempt delay env.
  induction fuel as [|fuel IH];
    intros response attempt delay env Hpending Hfuel; [lia|].
  destruct Hpending as (Hst & d & id & Hjson & Hid).
  cbn [poll_loop]. apply Z.eqb_eq in Hst as Hst'. rewrite Hst'. simpl.
  destruct (attempt <? max_attempts) eqn:Hlt.
  - apply Z.ltb_lt in Hlt.
    unfold mbind at 1, M_bind at 1, lift at 1. rewrite Hjson.
    unfold mbind at 1, M_bind at 1, lift at 1. simpl. rewrite Hid.
    unfold mbind at 1, M_bind at 1, request_read.
    match goal with
    | |- context [session ?p ?q] =>
        destruct (Hserver p q) as (r' & -> & [body Hread] & Hpending')
    end.
    rewrite Hread.
    destruct Hpending' as [Hst2 Hrest]. apply Z.eqb_eq in Hst2 as Hst2'.
    rewrite Hst2'. simpl.
    destruct (attempt + 1 <? max_attempts) eqn:Hlt'.
    + apply Z.ltb_lt in Hlt'.
      unfold mbind at 1, M_bind at 1, sleep, emit.
      match goal with
      | |- context [poll_loop fuel _ _ _ _ _ r' ?a ?dl ?e] =>
          destruct (IH r' a dl e) as (response' & tr & Hrec & Hreq & Hsl);
            [by split|lia|]
      end.
      replace (Z.max (attempt + 1) max_attempts)
        with (Z.max attempt max_attempts) in Hrec by lia.
      rewrite Hrec. eexists _, _. split; [reflexivity|].
      simpl. rewrite Hreq, Hsl. lia.
    + apply Z.ltb_ge in Hlt'.
      match goal with
      | |- context [poll_loop fuel _ _ _ _ _ r' ?a ?dl ?e] =>
          destruct (IH r' a dl e) as (response' & tr & Hrec & Hreq & Hsl);
            [by split|lia|]
      end.
      replace (Z.max (attempt + 1) max_attempts)
        with (Z.max attempt max_attempts) in Hrec by lia.
      rewrite Hrec. eexists _, _. split; [reflexivity|].
      simpl. rewrite Hreq, Hsl. lia.
  - apply Z.ltb_ge in Hlt. exists response, [].
    unfold mret, M_ret. rewrite Z.max_l by lia. split; [done|]. simpl. lia.
Qed.

(** X6. Against a server that keeps answering 202 with a request id, a
    pending submission times out: the call raises the timeout error after
    exactly [max_attempts] polls with [max_attempts - 1] sleeps between
    them (none of either for a budget of zero or less). *)
Theorem poll_pending_server_times_out session response token nvcf_url
    initial_delay max_attempts max_backoff env :
  (∀ past req, ∃ r, session past req = Resp r ∧ (∃ body, read r = Ok body) ∧
                    pending_with_id r) →
  pending_with_id response →
  ∃ tr,
    _poll_response_async session response token nvcf_url initial_delay
                         max_attempts max_backoff env
    = Some (Raise (TimeoutError "Maximum polling attempts reached"), tr) ∧
    requests tr = Z.to_nat max_attempts ∧
    length (sleeps tr) = Z.to_nat (max_attempts - 1).
Proof.
  intros Hserver Hpending.
  destruct (poll_loop_all_pending (S (Z.to_nat max_attempts)) session token
              nvcf_url max_attempts max_backoff response 0 initial_delay env
              Hserver Hpending) as (response' & tr & Hloop & Hreq & Hsl); [lia|].
  exists tr. rewrite Z.sub_0_r in Hreq, Hsl. split; [|done].
  apply poll_response_run. eexists. split; [exact Hloop|]. simpl.
  destruct (max_attempts <=? Z.max 0 max_attempts) eqn:Hle; [done|].
  apply Z.leb_gt in Hle. lia.
Qed.

(** ** More on the asset upload *)

(** X7. When [_prepare_local_asset_async] returns, the file exists and
    exactly two requests were sent: the creation of the asset, a [POST]
    with the bearer token that declares [binary/octet-stream] and the
    asset name, and then the upload, a [PUT] of the bytes of the file to
    the upload URL of the creation response.  The value returned is the
    [assetId] of the creation response if the upload was answered 200,
    and [None] otherwise. *)
Theorem prepare_uploads_file_to_created_asset session token asset_name filepath
    nvcf_url env v tr :
  _prepare_local_asset_async session token asset_name filepath nvcf_url env
  = Some (Ok v, tr) →
  ∃ data created uploaded j asset_url asset_id,
    files env !! filepath = Some data ∧
    json created = Ok j ∧
    getitem j "uploadUrl" = Ok asset_url ∧
    getitem j "assetId" = Ok asset_id ∧
    responses tr = [created; uploaded] ∧
    sent tr =
      [ {| meth := POST;
           url := PStr (newline +:+ nvcf_url +:+ "/assets");
           headers := {[ "Content-Type" := "application/json";
                         "Authorization" := "Bearer " +:+ token ]};
           payload := JsonBody (PDict {[ "contentType" := PStr "binary/octet-stream";
                                         "description" := PStr asset_name ]}) |};
        {| meth := PUT;
           url := asset_url;
           headers := {[ "Content-Type" := "binary/octet-stream";
                         "x-amz-meta-nvcf-asset-description" := asset_name ]};
           payload := DataBody data |} ] ∧
    v = (if status uploaded =? 200 then asset_id else PNone).
Proof.
  intros Hrun. prepare_cases Hrun.
  - eexists _, _, _, _, _, _. repeat (split; [done|]).
    by match goal with Hn : negb _ = true |- _ =>
         apply negb_true_iff in Hn as ->
       end.
  - eexists _, _, _, _, _, _. repeat (split; [done|]).
    by match goal with Hn : negb _ = false |- _ =>
         apply negb_false_iff in Hn as ->
       end.
Qed.

(** X8. If the answer to the asset creation lacks [uploadUrl] or
    [assetId], the call raises [KeyError] for the missing key right after
    the creation: the identifier is read before the upload, so nothing is
    uploaded. *)
Theorem prepare_missing_key_skips_upload session token asset_name filepath
    nvcf_url env r tr req created rest d :
  _prepare_local_asset_async session token asset_name filepath nvcf_url env
  = Some (r, tr) →
  tr = EvRequest req (Resp created) :: rest →
  json created = Ok (PDict d) →
  d !! "uploadUrl" = None ∨ d !! "assetId" = None →
  rest = [] ∧
  ∃ key, r = Raise (KeyError key) ∧ d !! key = None ∧
         (key = "uploadUrl" ∨ key = "assetId").
Proof.
  intros Hrun Htr Hjson Hkey. prepare_cases Hrun;
    repeat match goal with
           | Hj : json _ = Ok ?j, Hg : getitem ?j _ = _ |- _ =>
               rewrite Hjson in Hj; injection Hj as <-; simpl in Hg
           end;
    repeat (case_match; simplify_eq/=);
    try congruence; try (by destruct Hkey); eauto 10.
Qed.

(** X9. Whatever happens, [_prepare_local_asset_async] sends at most one
    creation and then at most one upload: the methods of its requests are
    a prefix of [POST], [PUT]. *)
Theorem prepare_creates_then_uploads session token asset_name filepath
    nvcf_url env r tr :
  _prepare_local_asset_async session token asset_name filepath nvcf_url env
  = Some (r, tr) →
  (meth <$> sent tr) `prefix_of` [POST; PUT].
Proof.
  intros Hrun. prepare_cases Hrun;
    solve [ by exists [POST; PUT] | by exists [PUT] | by exists [] ].
Qed.

Lemma prepare_requests session token asset_name filepath nvcf_url env r tr :
  _prepare_local_asset_async session token asset_name filepath nvcf_url env
  = Some (r, tr) →
  (requests tr ≤ 2)%nat ∧
  (∀ v, r = Ok v → requests tr = 2%nat ∧ is_Some (files env !! filepath)).
Proof.
  intros Hrun. prepare_cases Hrun; (split; [lia|]); intros v' Hv; by simplify_eq.
Qed.

Lemma upload_assets_run session token nvcf_url filepaths asset_names env r tr :
  upload_assets session token nvcf_url filepaths asset_names env = Some (r, tr) →
  (requests tr ≤ 2 * length filepaths)%nat ∧
  (∀ names, r = Ok names →
     length names = (length asset_names + length filepaths)%nat ∧
     asset_names `prefix_of` names ∧
     requests tr = (2 * length filepaths)%nat ∧
     Forall (λ p, is_Some (files env !! p)) filepaths).
Proof.
  revert asset_names env r tr.
  induction filepaths as [|filepath rest IH]; intros asset_names env r tr; simpl.
  - intros [= <- <-]. split; [simpl; lia|]. intros names [= <-].
    split; [lia|]. split; [done|]. split; [done|]. constructor.
  - intros [(e & Hfirst & ->)|(asset & es & es' & Hfirst & Hrest & ->)]%bind_run.
    + apply prepare_requests in Hfirst as [Hle _]. split; [lia|done].
    + apply prepare_requests in Hfirst as [_ Hok].
      destruct (Hok asset eq_refl) as [Hreq Hfile].
      apply IH in Hrest as [Hle Hnames]. rewrite requests_app.
      split; [lia|]. intros names ->.
      destruct (Hnames names eq_refl) as (Hlen & Hpre & Hreq' & Hfiles).
      rewrite length_app in Hlen. simpl in Hlen.
      split; [lia|]. split; [|split; [lia|]].
      * etrans; [|exact Hpre]. by apply prefix_app_r.
      * constructor; [done|]. exact Hfiles.
Qed.

(** ** More on the orchestrator *)

Lemma request_raise_run session req env e tr :
  request session req env = Some (Raise e, tr) →
  tr = [EvRequest req (NetRaise e)].
Proof. unfold request. by destruct (session _ _); intros [= <- <-]. Qed.

(** A run of [api_call_async], phase by phase: the uploads, the formation
    of the request, its submission, the polling and the envelope. *)
Lemma api_call_run session token params filepaths nvcf_url env r tr :
  api_call_async session token params filepaths nvcf_url env = Some (r, tr) →
  (∃ e, upload_assets session token nvcf_url filepaths [] env
        = Some (Raise e, tr) ∧ r = Raise e) ∨
  ∃ names tr_up,
    upload_assets session token nvcf_url filepaths [] env
    = Some (Ok names, tr_up) ∧
    ((∃ e, _format_request (_generate_command "vis_control" params) token names
           = Raise e ∧ r = Raise e ∧ tr = tr_up) ∨
     ∃ body headers,
       _format_request (_generate_command "vis_control" params) token names
       = Ok (body, headers) ∧
       ((∃ e, r = Raise e ∧
              tr = tr_up ++ [EvRequest {| meth := POST; url := PStr FUNCTION_URL;
                                          headers := headers;
                                          payload := JsonBody body |}
                                       (NetRaise e)]) ∨
        ∃ first r1 tr_poll env',
          tr = tr_up ++ EvRequest {| meth := POST; url := PStr FUNCTION_URL;
                                     headers := headers;
                                     payload := JsonBody body |}
                                  (Resp first) :: tr_poll ∧
          _poll_response_async session first token nvcf_url (1 # 1000) 10 32 env'
          = Some (r1, tr_poll) ∧
          r = (response ← r1; envelope response))).
Proof.
  unfold api_call_async. intros Hrun.
  apply bind_run in Hrun as [(e & Hup & ->)|(names & tr_up & ? & Hup & Hrun & ->)];
    [left; eauto|].
  right. exists names, tr_up. split; [done|].
  apply bind_run in Hrun
    as [(e & [Hfmt ->]%lift_run & ->)
       |([body headers] & ? & ? & [Hfmt ->]%lift_run & Hrun & ->)].
  { left. exists e. by rewrite app_nil_r. }
  right. exists body, headers. split; [done|].
  apply bind_run in Hrun
    as [(e & ->%request_raise_run & ->)
       |(first & ? & ? & ->%request_run & Hrun & ->)]; [left; eauto|].
  right.
  apply bind_run in Hrun
    as [(e & Hpoll & ->)|(response & tr_poll & es & Hpoll & Hrun & ->)].
  { eexists first, (Raise e), _, _. split; [done|]. by split. }
  eexists first, (Ok response), tr_poll, _.
  assert (r = envelope response ∧ es = []) as [-> ->].
  { unfold envelope. destruct (negb (status response =? 200)).
    - unfold mbind, M_bind, lift, mret, M_ret in Hrun. simpl in Hrun.
      destruct (text response); by simplify_eq/=.
    - destruct (process_response response) as [out|[]];
        unfold mret, M_ret, raise in Hrun; by simplify_eq/=. }
  rewrite app_nil_r. by split.
Qed.

Lemma envelope_status response res :
  envelope response = Ok res → status_code res = status response.
Proof.
  unfold envelope. destruct (negb (status response =? 200)).
  - destruct (text response); simpl; [|done]. by intros [= <-].
  - destruct (process_response response) as [out|[]]; try done;
      by intros [= <-].
Qed.

Lemma poll_response_ok session response token nvcf_url initial_delay
    max_attempts max_backoff env response' tr :
  _poll_response_async session response token nvcf_url initial_delay
                       max_attempts max_backoff env = Some (Ok response', tr) →
  status response' ≠ 202 ∧
  (tr = [] ∧ response' = response ∨ last_response tr = Some response').
Proof.
  intros (r0 & Hloop%poll_loop_run & Hr0)%poll_response_run.
  destruct r0 as [[response'' attempt]|e]; [|done].
  destruct (max_attempts <=? attempt) eqn:Hle; [done|].
  injection Hr0 as ->. apply Z.leb_gt in Hle.
  apply poll_run_ok in Hloop as [Hst Hlast]. auto.
Qed.

(** X10. The response [_poll_response_async] returns is never pending:
    whenever the call returns instead of raising, the status of what it
    returns is not 202. *)
Theorem poll_returns_only_non_pending session response token nvcf_url
    initial_delay max_attempts max_backoff env response' tr :
  _poll_response_async session response token nvcf_url initial_delay
                       max_attempts max_backoff env = Some (Ok response', tr) →
  status response' ≠ 202.
Proof. by intros [Hst _]%poll_response_ok. Qed.

(** X11. The envelope [api_call_async] returns is never that of a pending
    job, and it can be read without the response.  A status other than 200
    comes with [output = None] and a string as [response_text]; a status
    of 200 comes either with [response_text] and [output] the same value,
    or with the text [Connection Timeout] and [output = None]. *)
Theorem api_call_result_invariant session token params filepaths nvcf_url env
    res tr :
  api_call_async session token params filepaths nvcf_url env = Some (Ok res, tr) →
  status_code res ≠ 202 ∧
  (status_code res ≠ 200 →
   output res = PNone ∧ ∃ body, response_text res = PStr body) ∧
  (status_code res = 200 →
   response_text res = output res ∨
   response_text res = PStr "Connection Timeout" ∧ output res = PNone).
Proof.
  intros [(e & _ & [=])|(names & tr_up & _ & Hrun)]%api_call_run.
  destruct Hrun as [(e & _ & [=] & _)|(body & headers & _ & Hrun)].
  destruct Hrun as [(e & [=] & _)
                   |(first & r1 & tr_poll & env' & _ & Hpoll & Hres)].
  destruct r1 as [response|e]; [|done]. simpl in Hres. symmetry in Hres.
  apply poll_response_ok in Hpoll as [Hst _].
  pose proof (envelope_status _ _ Hres) as Hcode.
  split; [by rewrite Hcode|].
  unfold envelope in Hres.
  destruct (status response =? 200) eqn:H200; simpl in Hres.
  - apply Z.eqb_eq in H200.
    destruct (process_response response) as [out|[]]; simplify_eq/=;
      (split; [by rewrite H200|]); auto.
  - apply Z.eqb_neq in H200.
    destruct (text response) as [body'|]; simplify_eq/=.
    unfold mret, result_ret in Hres. injection Hres as <-. simpl.
    split; [eauto|]. intros Heq. congruence.
Qed.

Lemma api_call_last_response session first token nvcf_url env' response
    tr_poll tr_up req :
  _poll_response_async session first token nvcf_url (1 # 1000) 10 32 env'
  = Some (Ok response, tr_poll) →
  last_response (tr_up ++ EvRequest req (Resp first) :: tr_poll) = Some response.
Proof.
  intros [_ Hlast]%poll_response_ok. unfold last_response in *.
  rewrite responses_app. simpl. rewrite last_app, last_cons.
  destruct Hlast as [[-> ->] | ->]; done.
Qed.

(** Once the polling has handed back a response, the call ends with the
    envelope of that response, after the uploads, the submission and the
    polls. *)
Lemma api_call_after_polling session token params filepaths nvcf_url env
    asset_names tr_up request_body headers first response tr_poll :
  upload_assets session token nvcf_url filepaths [] env
  = Some (Ok asset_names, tr_up) →
  _format_request (_generate_command "vis_control" params) token asset_names
  = Ok (request_body, headers) →
  session (past env ++ tr_up)
          {| meth := POST; url := PStr FUNCTION_URL; headers := headers;
             payload := JsonBody request_body |}
  = Resp first →
  _poll_response_async session first token nvcf_url (1 # 1000) 10 32
    {| files := files env;
       past := past env ++ tr_up ++
               [EvRequest {| meth := POST; url := PStr FUNCTION_URL;
                             headers := headers;
                             payload := JsonBody request_body |}
                          (Resp first)] |}
  = Some (Ok response, tr_poll) →
  api_call_async session token params filepaths nvcf_url env
  = Some (envelope response,
          tr_up ++ EvRequest {| meth := POST; url := PStr FUNCTION_URL;
                                headers := headers;
                                payload := JsonBody request_body |}
                             (Resp first) :: tr_poll).
Proof.
  intros Hup Hfmt Hsub Hpoll. unfold api_call_async.
  apply bind_run. right. eexists asset_names, tr_up, _.
  split; [exact Hup|]. split; [|reflexivity].
  apply bind_run. right. eexists (request_body, headers), [], _.
  split; [unfold lift; by rewrite Hfmt|]. split; [|reflexivity].
  apply bind_run. right. eexists first, _, tr_poll. split.
  { unfold request. simpl. rewrite app_nil_r, Hsub. reflexivity. }
  split; [|reflexivity].
  apply bind_run. right. eexists response, tr_poll, []. split.
  { unfold advance. simpl. rewrite app_nil_r, <- (assoc_L (++)). exact Hpoll. }
  split; [|by rewrite app_nil_r].
  unfold envelope. destruct (negb (status response =? 200)).
  - unfold mbind, M_bind, lift, mret, M_ret. simpl.
    by destruct (text response).
  - by destruct (process_response response) as [out|[]].
Qed.

(** C5. Whenever the polling of [api_call_async] hands back a terminal
    response, it is the last HTTP response observed in the run and the
    call returns a [Result] for it: if the status is not 200, the [Result]
    has the body text of the response as [response_text], [output = None]
    and that status as [status_code]; if the status is 200 and the body
    decodes, both [response_text] and [output] are the decoded payload and
    [status_code] is 200.  Conversely every [Result] the call returns is
    of one of these shapes (or the one of the connection timeout), and its
    [status_code] is the status of the last response observed. *)
Theorem api_call_result_envelope session token params filepaths nvcf_url env :
  (∀ asset_names tr_up request_body headers first response tr_poll,
     upload_assets session token nvcf_url filepaths [] env
     = Some (Ok asset_names, tr_up) →
     _format_request (_generate_command "vis_control" params) token asset_names
     = Ok (request_body, headers) →
     session (past env ++ tr_up)
             {| meth := POST; url := PStr FUNCTION_URL; headers := headers;
                payload := JsonBody request_body |}
     = Resp first →
     _poll_response_async session first token nvcf_url (1 # 1000) 10 32
       {| files := files env;
          past := past env ++ tr_up ++
                  [EvRequest {| meth := POST; url := PStr FUNCTION_URL;
                                headers := headers;
                                payload := JsonBody request_body |}
                             (Resp first)] |}
     = Some (Ok response, tr_poll) →
     ∃ tr,
       tr = tr_up ++ EvRequest {| meth := POST; url := PStr FUNCTION_URL;
                                  headers := headers;
                                  payload := JsonBody request_body |}
                               (Resp first) :: tr_poll ∧
       last_response tr = Some response ∧
       (status response ≠ 200 →
        ∀ body, text response = Ok body →
          api_call_async session token params filepaths nvcf_url env
          = Some (Ok {| response_text := PStr body; output := PNone;
                        status_code := status response |}, tr)) ∧
       (status response = 200 →
        ∀ out, process_response response = Ok out →
          api_call_async session token params filepaths nvcf_url env
          = Some (Ok {| response_text := out; output := out;
                        status_code := 200 |}, tr))) ∧
  (∀ res tr,
     api_call_async session token params filepaths nvcf_url env
     = Some (Ok res, tr) →
     ∃ response,
       last_response tr = Some response ∧
       status_code res = status response ∧
       (status response ≠ 200 →
        ∃ body, text response = Ok body ∧
                res = {| response_text := PStr body; output := PNone;
                         status_code := status response |}) ∧
       (status response = 200 →
        ∀ out, process_response response = Ok out →
               res = {| response_text := out; output := out;
                        status_code := 200 |})).
Proof.
  split.
  - intros asset_names tr_up request_body headers first response tr_poll
           Hup Hfmt Hsub Hpoll.
    pose proof (api_call_after_polling _ _ _ _ _ _ _ _ _ _ _ _ _
                  Hup Hfmt Hsub Hpoll) as Hrun.
    eexists. split; [reflexivity|].
    split; [by eapply api_call_last_response|].
    unfold envelope in Hrun. split.
    + intros Hne%Z.eqb_neq body Hbody. by rewrite Hne, Hbody in Hrun.
    + intros Heq out Hout. apply Z.eqb_eq in Heq as Heq'.
      rewrite Heq', Hout in Hrun. simpl in Hrun. by rewrite Heq in Hrun.
  - intros res tr [(e & _ & [=])|(names & tr_up & _ & Hrun)]%api_call_run.
    destruct Hrun as [(e & _ & [=] & _)|(body & headers & _ & Hrun)].
    destruct Hrun as [(e & [=] & _)
                     |(first & r1 & tr_poll & env' & -> & Hpoll & Hres)].
    destruct r1 as [response|e]; [|done]. simpl in Hres. symmetry in Hres.
    exists response.
    split; [by eapply api_call_last_response|].
    split; [by apply envelope_status|].
    unfold envelope in Hres. split.
    + intros Hne%Z.eqb_neq. rewrite Hne in Hres. simpl in Hres.
      destruct (text response) as [body'|]; [|done].
      unfold mret, result_ret in Hres. injection Hres as <-. eauto.
    + intros Heq out Hout. apply Z.eqb_eq in Heq as Heq'.
      rewrite Heq', Hout in Hres. simpl in Hres. injection Hres as <-.
      by rewrite Heq.
Qed.

(** X12. If the last response has status 200 and decoding it raises, the
    call can still return a [Result] only for a connection timeout: the
    [Result] is then the text [Connection Timeout] with no output and
    status 200.  Any other decoding error leaves the call as an
    exception. *)
Theorem api_call_connection_timeout session token params filepaths nvcf_url env
    res tr response e :
  api_call_async session token params filepaths nvcf_url env = Some (Ok res, tr) →
  last_response tr = Some response →
  status response = 200 →
  process_response response = Raise e →
  e = ConnectionTimeoutError ∧
  res = {| response_text := PStr "Connection Timeout"; output := PNone;
           status_code := 200 |}.
Proof.
  intros [(e' & _ & [=])|(names & tr_up & _ & Hrun)]%api_call_run
         Hlast H200 Hdecode.
  destruct Hrun as [(e' & _ & [=] & _)|(body & headers & _ & Hrun)].
  destruct Hrun as [(e' & [=] & _)
                   |(first & r1 & tr_poll & env' & -> & Hpoll & Hres)].
  destruct r1 as [response'|e']; [|done]. simpl in Hres. symmetry in Hres.
  rewrite (api_call_last_response _ _ _ _ _ _ _ _ _ Hpoll) in Hlast.
  injection Hlast as ->.
  unfold envelope in Hres. apply Z.eqb_eq in H200 as H200'.
  rewrite H200', Hdecode in Hres. simpl in Hres.
  destruct e; simplify_eq/=. by rewrite H200.
Qed.

Lemma str_items_ok items ss :
  str_items items = Ok ss → items = PStr <$> ss.
Proof.
  revert ss. induction items as [|item items IH]; intros ss; simpl.
  - by intros [= <-].
  - destruct item; try done.
    destruct (str_items items) as [ss'|]; simpl; [|done].
    intros [= <-]. by rewrite (IH ss' eq_refl).
Qed.

Lemma str_items_raise items e :
  str_items items = Raise e →
  e = TypeError ∧ ¬ Forall (λ v, ∃ s, v = PStr s) items.
Proof.
  induction items as [|item items IH]; simpl; [done|].
  destruct item;
    try (intros [= <-]; split; [done|];
         intros [[s [=]] _]%Forall_cons; done).
  destruct (str_items items) as [ss|e']; simpl; [done|].
  intros [= <-]. destruct (IH eq_refl) as [-> Hnot]. split; [done|].
  by intros [_ Hall]%Forall_cons.
Qed.

Lemma format_request_cases command token asset_names :
  match _format_request command token asset_names with
  | Ok _ => Forall (λ v, ∃ s, v = PStr s) asset_names
  | Raise e => e = TypeError ∧ ¬ Forall (λ v, ∃ s, v = PStr s) asset_names
  end.
Proof.
  unfold _format_request.
  destruct asset_names as [|item items]; [by constructor|].
  change (0 <? length (item :: items))%nat with true. cbv iota.
  unfold str_join.
  destruct (str_items (item :: items)) as [ss|e] eqn:Hitems; simpl.
  - apply str_items_ok in Hitems as ->.
    apply Forall_fmap, Forall_true. intros s. by exists s.
  - by apply str_items_raise.
Qed.

(** X13. [_format_request] succeeds exactly when every asset name is a
    string (an empty list included); with any other value among them,
    such as the [None] of a refused upload, it raises [TypeError]. *)
Theorem format_request_needs_strings command token asset_names :
  ((∃ out, _format_request command token asset_names = Ok out) ↔
   Forall (λ v, ∃ s, v = PStr s) asset_names) ∧
  (∀ e, _format_request command token asset_names = Raise e → e = TypeError).
Proof.
  pose proof (format_request_cases command token asset_names) as Hcases.
  destruct (_format_request command token asset_names) as [out|e].
  - split; [|done]. split; [done|]. intros _. by exists out.
  - destruct Hcases as [-> Hnot]. split.
    + split; [by intros [out [=]]|done].
    + by intros e [= <-].
Qed.




(** X15. A path without a file anywhere in [filepaths] makes the whole
    call fail during the uploads: [api_call_async] ends with the exception
    and the trace of the upload loop, before a request is formed or
    submitted, and returns no [Result]. *)
Theorem api_call_missing_file_fails session token params filepaths nvcf_url
    env filepath :
  filepath ∈ filepaths →
  files env !! filepath = None →
  ∃ e tr,
    api_call_async session token params filepaths nvcf_url env
    = Some (Raise e, tr) ∧
    upload_assets session token nvcf_url filepaths [] env = Some (Raise e, tr).
Proof.
  intros Hin Hnone.
  destruct (upload_assets_total session token nvcf_url filepaths [] env)
    as [[r tr] Hup].
  destruct r as [names|e].
  - apply upload_assets_run in Hup as [_ Hup].
    destruct (Hup names eq_refl) as (_ & _ & _ & Hfiles).
    rewrite Forall_forall in Hfiles. apply Hfiles in Hin.
    rewrite Hnone in Hin. by destruct Hin.
  - exists e, tr. split; [|done].
    unfold api_call_async, mbind at 1, M_bind at 1. by rewrite Hup.
Qed.

(** X16. Whatever the outcome, a call of [api_call_async] sends at most two
    requests for each file, one submission and ten polls. *)
Theorem api_call_request_bound session token params filepaths nvcf_url env r tr :
  api_call_async session token params filepaths nvcf_url env = Some (r, tr) →
  (requests tr ≤ 2 * length filepaths + 11)%nat.
Proof.
  intros [(e & Hup & _)|(names & tr_up & Hup & Hrun)]%api_call_run.
  { apply upload_assets_run in Hup as [Hle _]. lia. }
  apply upload_assets_run in Hup as [Hle _].
  destruct Hrun as [(e & _ & _ & ->)|(body & headers & _ & Hrun)]; [lia|].
  destruct Hrun as [(e & _ & ->)
                   |(first & r1 & tr_poll & env' & -> & Hpoll & _)].
  { rewrite requests_app. simpl. lia. }
  apply poll_response_run in Hpoll as (r0 & Hloop%poll_loop_run & _).
  apply poll_run_requests in Hloop.
  rewrite requests_app. simpl. simpl in Hloop. lia.
Qed.

(** ** More on the request builder *)

Lemma append_assoc_string (a b c : string) : (a +:+ b) +:+ c = a +:+ (b +:+ c).
Proof.
  induction a as [|ch a IH]; [done|].
  change (String ch ((a +:+ b) +:+ c) = String ch (a +:+ (b +:+ c))).
  by rewrite IH.
Qed.


(** ** More on decoding *)

Lemma unpack_entries_cons zip_archive name rest acc :
  unpack_entries zip_archive (name :: rest) acc
  = match entry_key name with
    | Some key =>
        value ← entry_value zip_archive name;
        unpack_entries zip_archive rest (<[key := value]> acc)
    | None => unpack_entries zip_archive rest acc
    end.
Proof.
  unfold entry_key, entry_value. cbn [unpack_entries].
  destruct (endswith name ".json").
  - destruct (zread zip_archive name); simpl; [|done].
    by destruct (json_loads _).
  - destruct (endswith name ".png"), (endswith name ".mp4");
      by destruct (zread zip_archive name).
Qed.

Lemma unpack_entries_app zip_archive names1 names2 acc :
  unpack_entries zip_archive (names1 ++ names2) acc
  = (acc' ← unpack_entries zip_archive names1 acc;
     unpack_entries zip_archive names2 acc').
Proof.
  revert acc. induction names1 as [|name names1 IH]; intros acc; [done|].
  rewrite <- app_comm_cons, !unpack_entries_cons.
  destruct (entry_key name); [|apply IH].
  destruct (entry_value zip_archive name); simpl; [apply IH|done].
Qed.

Lemma unpack_entries_dom zip_archive names acc out :
  unpack_entries zip_archive names acc = Ok out →
  ∀ key, key ∈ dom out ↔
         key ∈ dom acc ∨ ∃ name, name ∈ names ∧ entry_key name = Some key.
Proof.
  revert acc. induction names as [|name names IH]; intros acc.
  - intros [= <-] key. split; [auto|]. intros [?|(? & []%elem_of_nil & _)]. done.
  - rewrite unpack_entries_cons. destruct (entry_key name) as [k|] eqn:Hk.
    + destruct (entry_value zip_archive name) as [v|]; simpl; [|done].
      intros Hrest key. rewrite (IH _ Hrest key), dom_insert, elem_of_union,
        elem_of_singleton.
      split.
      * intros [[->|?]|(n & Hin & Hn)]; [right|by left|right].
        -- exists name. split; [by left|done].
        -- exists n. split; [by right|done].
      * intros [?|(n & [->|Hin]%elem_of_cons & Hn)]; [by left; right| |].
        -- left; left. congruence.
        -- right. eauto.
    + intros Hrest key. rewrite (IH _ Hrest key). split.
      * intros [?|(n & Hin & Hn)]; [by left|right].
        exists n. split; [by right|done].
      * intros [?|(n & [->|Hin]%elem_of_cons & Hn)]; [by left|congruence|].
        right. eauto.
Qed.

Lemma unpack_entries_keeps zip_archive names acc out key :
  unpack_entries zip_archive names acc = Ok out →
  (∀ name, name ∈ names → entry_key name ≠ Some key) →
  out !! key = acc !! key.
Proof.
  revert acc. induction names as [|name names IH]; intros acc.
  - by intros [= <-].
  - rewrite unpack_entries_cons. intros Hrun Hother.
    assert (entry_key name ≠ Some key) as Hname by (apply Hother; by left).
    assert (∀ n, n ∈ names → entry_key n ≠ Some key) as Hrest
      by (intros n Hin; apply Hother; by right).
    destruct (entry_key name) as [k|].
    + destruct (entry_value zip_archive name) as [v|]; simpl in Hrun; [|done].
      rewrite (IH _ Hrun Hrest). apply lookup_insert_ne. congruence.
    + by apply IH.
Qed.

(** X18. When [_unpack_zip_response_async] succeeds, the keys of its
    mapping are exactly the keys of the recognised entries of the archive:
    the base name without [.json] of each JSON entry, [image] if there is
    a [.png] entry and [video] if there is an [.mp4] entry.  Entries with
    any other extension leave no trace. *)
Theorem unpack_zip_keys response out :
  _unpack_zip_response_async response = Ok out →
  ∃ content zip_archive,
    read response = Ok content ∧
    ZipFile content = Ok zip_archive ∧
    ∀ key, key ∈ dom out ↔
           ∃ name, name ∈ namelist zip_archive ∧ entry_key name = Some key.
Proof.
  unfold _unpack_zip_response_async.
  destruct (read response) as [content|] eqn:Hread; simpl; [|done].
  destruct (is_zipfile content); simpl; [|done].
  destruct (ZipFile content) as [zip_archive|] eqn:Hopen; simpl; [|done].
  intros Hrun. exists content, zip_archive. split; [done|]. split; [done|].
  intros key. rewrite (unpack_entries_dom _ _ _ _ Hrun key), dom_empty.
  split; [|auto]. by intros [[]%elem_of_empty|?].
Qed.

(** X19. Entries are stored in the order of the archive and a later entry
    replaces an earlier one under the same key: when the decoding
    succeeds, the value at a key is the value of the last entry filed
    under it; in particular the last [.png] entry is the image, unless an
    [image.json] follows it. *)
Theorem unpack_zip_last_entry_wins response content zip_archive out
    before name after key :
  _unpack_zip_response_async response = Ok out →
  read response = Ok content →
  ZipFile content = Ok zip_archive →
  namelist zip_archive = before ++ name :: after →
  entry_key name = Some key →
  (∀ later, later ∈ after → entry_key later ≠ Some key) →
  ∃ value, entry_value zip_archive name = Ok value ∧ out !! key = Some value.
Proof.
  unfold _unpack_zip_response_async. intros Hrun Hread Hopen Hnames Hkey Hlast.
  rewrite Hread in Hrun. simpl in Hrun.
  destruct (is_zipfile content); simpl in Hrun; [|done].
  rewrite Hopen in Hrun. simpl in Hrun.
  rewrite Hnames, unpack_entries_app in Hrun.
  destruct (unpack_entries zip_archive before ∅) as [acc|]; [|done].
  change (unpack_entries zip_archive (name :: after) acc = Ok out) in Hrun.
  rewrite unpack_entries_cons, Hkey in Hrun.
  destruct (entry_value zip_archive name) as [value|]; simpl in Hrun; [|done].
  exists value. split; [done|].
  rewrite (unpack_entries_keeps _ _ _ _ _ Hrun Hlast). apply lookup_insert_eq.
Qed.

(** X20. The decoding is all or nothing: the first recognised entry that
    cannot be read or parsed makes the whole call raise its error, whatever
    was decoded before it. *)
Theorem unpack_zip_fails_on_first_bad_entry response content zip_archive
    before name after e :
  read response = Ok content →
  is_zipfile content = true →
  ZipFile content = Ok zip_archive →
  namelist zip_archive = before ++ name :: after →
  (∀ earlier, earlier ∈ before →
     entry_key earlier = None ∨ ∃ value, entry_value zip_archive earlier = Ok value) →
  entry_key name ≠ None →
  entry_value zip_archive name = Raise e →
  _unpack_zip_response_async response = Raise e.
Proof.
  intros Hread Hzip Hopen Hnames Hbefore Hkey Hvalue.
  unfold _unpack_zip_response_async. rewrite Hread. simpl. rewrite Hzip. simpl.
  rewrite Hopen. simpl. rewrite Hnames, unpack_entries_app.
  assert (∃ acc, unpack_entries zip_archive before ∅ = Ok acc) as [acc ->].
  { clear Hnames. generalize (∅ : gmap string pyval).
    induction before as [|n before IH]; intros acc; [by eexists|].
    rewrite unpack_entries_cons.
    destruct (Hbefore n) as [->|[value Hv]]; [by left| |].
    - apply IH. intros m Hm. apply Hbefore. by right.
    - destruct (entry_key n); [rewrite Hv; simpl|];
        apply IH; intros m Hm; apply Hbefore; by right. }
  change (unpack_entries zip_archive (name :: after) acc = Raise e).
  rewrite unpack_entries_cons.
  destruct (entry_key name); [|done]. by rewrite Hvalue.
Qed.

Lemma append_cons_string c (a b : string) : String c a +:+ b = String c (a +:+ b).
Proof. reflexivity. Qed.

Lemma length_append_string (a b : string) :
  String.length (a +:+ b) = (String.length a + String.length b)%nat.
Proof.
  induction a as [|c a IH]; [done|].
  rewrite append_cons_string. simpl. by rewrite IH.
Qed.

Lemma substring_all (b : string) : substring 0 (String.length b) b = b.
Proof. induction b as [|c b IH]; simpl; [done|]. by rewrite IH. Qed.

Lemma substring_append_r (a b : string) :
  substring (String.length a) (String.length b) (a +:+ b) = b.
Proof.
  induction a as [|c a IH]; [apply substring_all|].
  rewrite append_cons_string. simpl. exact IH.
Qed.

Lemma substring_append_l (a b : string) :
  substring 0 (String.length a) (a +:+ b) = a.
Proof.
  induction a as [|c a IH]; [by destruct b|].
  rewrite append_cons_string. simpl. by rewrite IH.
Qed.

Lemma endswith_append (a suffix : string) : endswith (a +:+ suffix) suffix = true.
Proof.
  unfold endswith. rewrite length_append_string.
  replace (String.length a + String.length suffix - String.length suffix)%nat
    with (String.length a) by lia.
  rewrite substring_append_r, String.eqb_refl, andb_true_r.
  apply Nat.leb_le. lia.
Qed.

Lemma drop_last_append (a suffix : string) :
  drop_last (String.length suffix) (a +:+ suffix) = a.
Proof.
  unfold drop_last. rewrite length_append_string.
  replace (String.length a + String.length suffix - String.length suffix)%nat
    with (String.length a) by lia.
  apply substring_append_l.
Qed.

Lemma slash_free_append (a b : string) :
  slash_free (a +:+ b) = slash_free a && slash_free b.
Proof.
  induction a as [|c a IH]; [done|].
  rewrite append_cons_string. simpl. by rewrite IH, andb_assoc.
Qed.

Lemma basename_from_slash_free current s :
  slash_free s = true → basename_from current s = current +:+ s.
Proof.
  revert current. induction s as [|c s IH]; intros current; simpl.
  - intros _. induction current as [|c current IH]; [done|].
    rewrite append_cons_string. by rewrite <- IH.
  - intros [Hc Hs]%andb_true_iff. apply negb_true_iff in Hc. rewrite Hc.
    rewrite (IH _ Hs). apply append_assoc_string.
Qed.

Lemma basename_from_directory current dir s :
  basename_from current (dir +:+ "/" +:+ s) = basename_from "" s.
Proof.
  revert current. induction dir as [|c dir IH]; intros current; [done|].
  rewrite append_cons_string. simpl. by destruct (Ascii.eqb c "/"%char).
Qed.

(** X21. A JSON entry is filed under its file name without the extension,
    whether it lies at the top of the archive or in a directory: for a
    name [stem] without a slash, both [stem.json] and [dir/stem.json] get
    the key [stem]. *)
Theorem json_entry_key_is_stem dir stem :
  slash_free stem = true →
  entry_key (stem +:+ ".json") = Some stem ∧
  entry_key (dir +:+ "/" +:+ stem +:+ ".json") = Some stem.
Proof.
  intros Hstem.
  assert (slash_free (stem +:+ ".json") = true) as Hfree
    by (by rewrite slash_free_append, Hstem).
  split.
  - unfold entry_key. rewrite endswith_append. f_equal.
    unfold basename. rewrite (basename_from_slash_free _ _ Hfree). simpl.
    apply (drop_last_append stem ".json").
  - unfold entry_key.
    replace (dir +:+ "/" +:+ stem +:+ ".json")
      with ((dir +:+ "/" +:+ stem) +:+ ".json")
      by (by rewrite !append_assoc_string).
    rewrite endswith_append. f_equal.
    rewrite !append_assoc_string.
    unfold basename. rewrite basename_from_directory.
    rewrite (basename_from_slash_free _ _ Hfree). simpl.
    apply (drop_last_append stem ".json").
Qed.

End Facts.


(** * Video encoding: the checks before the rendering *)

Section VideoFacts.
Context `{VideoRuntime}.

Lemma check_frames_run root_dir camera_name frame_idx remaining env :
  check_frames root_dir camera_name frame_idx (S remaining) env
  = if bool_decide (frame_on_disk env root_dir camera_name frame_idx)
    then check_frames root_dir camera_name (frame_idx + 1) remaining env
    else Some (Raise (ValueError ("Missing frame at frame index " +:+
                                  string_of_Z frame_idx)), []).
Proof.
  cbn [check_frames]. unfold mbind, M_bind, path_exists, raise. simpl.
  unfold frame_on_disk.
  destruct (files env !! normals_path _ _ _) as [?|] eqn:Hn;
    destruct (files env !! segmentation_path _ _ _) as [?|] eqn:Hs; simpl.
  all: try done.
  replace (advance (advance env []) []) with env
    by (destruct env; unfold advance; simpl; by rewrite !app_nil_r).
  by destruct (check_frames _ _ _ _ _) as [[? ?]|].
Qed.

Lemma check_frames_pass root_dir camera_name frame_idx remaining env :
  (∀ i, frame_idx ≤ i < frame_idx + Z.of_nat remaining →
        frame_on_disk env root_dir camera_name i) →
  check_frames root_dir camera_name frame_idx remaining env = Some (Ok tt, []).
Proof.
  revert frame_idx. induction remaining as [|remaining IH]; intros frame_idx Hall.
  - done.
  - rewrite check_frames_run, bool_decide_eq_true_2 by (apply Hall; lia).
    apply IH. intros i Hi. apply Hall. lia.
Qed.

Lemma check_frames_first_missing root_dir camera_name frame_idx remaining env k :
  frame_idx ≤ k < frame_idx + Z.of_nat remaining →
  (∀ i, frame_idx ≤ i < k → frame_on_disk env root_dir camera_name i) →
  ¬ frame_on_disk env root_dir camera_name k →
  check_frames root_dir camera_name frame_idx remaining env
  = Some (Raise (ValueError ("Missing frame at frame index " +:+ string_of_Z k)),
          []).
Proof.
  revert frame_idx. induction remaining as [|remaining IH];
    intros frame_idx Hk Hbefore Hmissing; [lia|].
  rewrite check_frames_run.
  destruct (decide (frame_idx = k)) as [->|Hne].
  - by rewrite bool_decide_eq_false_2.
  - rewrite bool_decide_eq_true_2 by (apply Hbefore; lia).
    apply IH; [lia| |done]. intros i Hi. apply Hbefore. lia.
Qed.

(** X22. [encode_video] rejects a bad range before it looks at any file: a
    negative [start_frame] raises [ValueError] saying so, whatever
    [num_frames] is, and with a valid start a [num_frames] of zero or less
    raises [ValueError] for it. *)
Theorem encode_video_rejects_bad_range root_dir start_frame num_frames
    camera_name output_path env :
  (start_frame < 0 →
   encode_video root_dir start_frame num_frames camera_name output_path env
   = Some (Raise (ValueError "start_frame must be non-negative"), [])) ∧
  (0 ≤ start_frame → num_frames ≤ 0 →
   encode_video root_dir start_frame num_frames camera_name output_path env
   = Some (Raise (ValueError "num_frames must be positive"), [])).
Proof.
  unfold encode_video. split.
  - by intros ->%Z.ltb_lt.
  - by intros ->%Z.ltb_ge ->%Z.leb_le.
Qed.

(** X23. With a valid range, the frames are checked in order and the first
    frame that lacks its normals file or its segmentation file stops the
    call: it raises [ValueError] naming that frame index, and the frames
    are not rendered. *)
Theorem encode_video_reports_first_missing_frame root_dir start_frame
    num_frames camera_name output_path env k :
  0 ≤ start_frame →
  start_frame ≤ k < start_frame + num_frames →
  (∀ i, start_frame ≤ i < k → frame_on_disk env root_dir camera_name i) →
  ¬ frame_on_disk env root_dir camera_name k →
  encode_video root_dir start_frame num_frames camera_name output_path env
  = Some (Raise (ValueError ("Missing frame at frame index " +:+ string_of_Z k)),
          []).
Proof.
  intros Hstart Hk Hbefore Hmissing. unfold encode_video.
  apply Z.ltb_ge in Hstart as ->.
  assert (0 < num_frames) as Hnum by lia. apply Z.leb_gt in Hnum as ->.
  unfold mbind, M_bind.
  by rewrite (check_frames_first_missing _ _ _ _ _ k) by (done || lia).
Qed.

(** X24. With a valid range and every frame of it on disk, the checks pass
    and the call is the rendering of the frames: it ends as the rendering
    ends. *)
Theorem encode_video_renders_checked_frames root_dir start_frame num_frames
    camera_name output_path env :
  0 ≤ start_frame →
  0 < num_frames →
  (∀ i, start_frame ≤ i < start_frame + num_frames →
        frame_on_disk env root_dir camera_name i) →
  encode_video root_dir start_frame num_frames camera_name output_path env
  = Some (render_frames root_dir start_frame num_frames camera_name output_path,
          []).
Proof.
  intros Hstart Hnum Hall. unfold encode_video.
  apply Z.ltb_ge in Hstart as ->. apply Z.leb_gt in Hnum as Hnum'. rewrite Hnum'.
  unfold mbind, M_bind.
  rewrite check_frames_pass by (intros i Hi; apply Hall; lia).
  done.
Qed.

End VideoFacts.

#[local] Existing Instance test_runtime.

(** C2 (the code departs from the claim). With a budget of zero polls the
    first response is observed with status 200, not pending, and the call
    raises the timeout error all the same, without sending anything. *)
Theorem poll_zero_budget_discards_terminal_response :
  status (job_response 200 "done") ≠ 202 ∧
  _poll_response_async always_pending (job_response 200 "done") "token"
      NVCF_URL_PROD (1 # 1000) 0 32 env0
  = Some (Raise (TimeoutError "Maximum polling attempts reached"), []).
Proof. split; [done|]. vm_compute. reflexivity. Qed.


(** C4 (the code departs from the claim). Two files are uploaded and the
    storage refuses the first.  The uploader does not raise and returns
    [None] for it; the orchestrator goes on to upload the second file, but
    then the request formation raises on the missing identifier: the call
    ends with a [TypeError] after the four upload requests, and nothing is
    submitted for the asset that was stored. *)
Theorem api_call_aborts_after_refused_upload :
  (∃ tr0, _prepare_local_asset_async first_upload_refused "token"
            "a.png" "a.png" NVCF_URL_PROD two_files = Some (Ok PNone, tr0)) ∧
  ∃ tr, api_call_async first_upload_refused "token"
          [("seed", PInt 1)] ["a.png"; "b.png"] NVCF_URL_PROD two_files
        = Some (Raise TypeError, tr) ∧
        responses tr = [ created_response "asset-1"; upload_response 403 "denied";
                         created_response "asset-2"; upload_response 200 "" ] ∧
        requests tr = 4%nat ∧
        submissions tr = 0%nat.
Proof.
  split.
  - eexists. vm_compute. reflexivity.
  - eexists. split; [vm_compute; reflexivity|]. by repeat split.
Qed.

(** * The theorems at work on concrete runs *)

Lemma poll_bounded_and_exits_on_terminal_witness :
  ∃ r tr,
    _poll_response_async fails_at_second_poll (job_response 202 "")
        "token" NVCF_URL_PROD 1 3 32 env0 = Some (r, tr) ∧
    (requests tr ≤ 3)%nat ∧
    r = Ok (job_response 500 "failed").
Proof.
  destruct (poll_bounded_and_exits_on_terminal fails_at_second_poll
              (job_response 202 "") "token" NVCF_URL_PROD 1 3 32 env0)
    as (r & tr & Hrun & Hbound & Hexit).
  exists r, tr. split; [exact Hrun|]. split; [exact Hbound|].
  vm_compute in Hrun. injection Hrun as Hr Htr.
  symmetry in Htr.
  refine (proj2 (Hexit [_; _] _ _ [] Htr _)).
  vm_compute. discriminate.
Defined.


Lemma api_call_result_envelope_witness :
  (∃ tr,
     status (job_response 500 "failed") ≠ 200 ∧
     text (job_response 500 "failed") = Ok "failed" ∧
     last_response tr = Some (job_response 500 "failed") ∧
     api_call_async fails_at_second_poll "token" [("seed", PInt 1)] []
         NVCF_URL_PROD env0
     = Some (Ok {| response_text := PStr "failed"; output := PNone;
                   status_code := 500 |}, tr)) ∧
  (∃ res tr,
     api_call_async done_at_first_poll "token" [("seed", PInt 1)] []
         NVCF_URL_PROD env0 = Some (Ok res, tr) ∧
     last_response tr = Some (job_response 200 "7") ∧
     res = {| response_text := PInt 7; output := PInt 7; status_code := 200 |}).
Proof.
  split.
  - destruct (proj1 (api_call_result_envelope (H := test_runtime)
                       fails_at_second_poll "token" [("seed", PInt 1)] []
                       NVCF_URL_PROD env0)
                [] [] _ _ (job_response 202 "") (job_response 500 "failed") _
                eq_refl eq_refl eq_refl ltac:(vm_compute; reflexivity))
      as (tr & _ & Hlast & Hfailed & _).
    exists tr. split; [discriminate|]. split; [reflexivity|].
    split; [exact Hlast|]. apply Hfailed; [discriminate|reflexivity].
  - eexists _, _. split; [vm_compute; reflexivity|].
    destruct (proj2 (api_call_result_envelope (H := test_runtime)
                       done_at_first_poll "token" [("seed", PInt 1)] []
                       NVCF_URL_PROD env0) _ _
                ltac:(vm_compute; reflexivity))
      as (response & Hlast & _ & _ & Hdone).
    vm_compute in Hlast. injection Hlast as <-.
    split; [reflexivity|].
    exact (Hdone eq_refl (PInt 7) eq_refl).
Defined.

Lemma unpack_zip_roundtrip_witness :
  ∃ out : gmap string pyval,
    _unpack_zip_response_async zip_response = Ok out ∧
    dom out = {[ "a"; "image"; "video" ]} ∧
    out !! "a" = Some (PInt 7) ∧
    out !! "image" = Some (PBytes "PNGDATA") ∧
    out !! "video" = Some (PBytes "MP4DATA").
Proof.
  apply (unpack_zip_roundtrip zip_response "PK:sample"
           sample_archive "7" (PInt 7) "PNGDATA" "MP4DATA");
    reflexivity.
Defined.

Lemma process_response_unsupported_witness :
  process_response (upload_response 200 "hello")
  = Raise (ValueError "Unsupported content type: text/plain").
Proof.
  apply (process_response_unsupported (upload_response 200 "hello"));
    discriminate.
Defined.

Lemma prepare_missing_path_fails_fast_witness :
  files env0 !! "missing.png" = None ∧
  _prepare_local_asset_async always_pending "token" "missing.png"
      "missing.png" NVCF_URL_PROD env0
  = Some (Raise (FileNotFoundError "missing.png not found"), []).
Proof.
  split; [reflexivity|].
  apply (prepare_missing_path_fails_fast). reflexivity.
Defined.

Lemma format_request_shape_witness :
  ∃ inputs headers entry,
    _format_request "vis_control --seed=1" "token" [PStr "asset-1"; PStr "asset-2"]
    = Ok (PDict {[ "inputs" := PList inputs ]}, headers) ∧
    headers !! "NVCF-INPUT-ASSET-REFERENCES" = Some "asset-1,asset-2" ∧
    inputs !! 2%nat = Some (PDict entry) ∧
    entry !! "name" = Some (PStr "image_assetId_1") ∧
    entry !! "data" = Some (PList [PStr "asset-2"]).
Proof.
  destruct (format_request_shape "vis_control --seed=1" "token" ["asset-1"; "asset-2"])
    as (inputs & headers & Hrun & _ & _ & _ & Hrefs & _ & _ & Hassets).
  destruct (Hassets 1%nat "asset-2" eq_refl) as (entry & Hentry & Hname & Hdata).
  exists inputs, headers, entry. repeat split; assumption.
Defined.

(** * The further facts at work on concrete runs *)

Lemma poll_terminal_first_response_returned_witness :
  _poll_response_async always_pending (job_response 200 "done") "token"
      NVCF_URL_PROD 1 3 32 env0
  = Some (Ok (job_response 200 "done"), []).
Proof.
  apply (poll_terminal_first_response_returned (H := test_runtime));
    [reflexivity|discriminate].
Defined.

Lemma poll_network_failure_propagates_witness :
  ∃ r tr req,
    _poll_response_async unreachable (job_response 202 "") "token"
        NVCF_URL_PROD 1 3 32 env0 = Some (r, tr) ∧
    tr = [] ++ EvRequest req (NetRaise (OtherError "ClientConnectionError")) :: [] ∧
    r = Raise (OtherError "ClientConnectionError").
Proof.
  eexists _, _, _. split; [vm_compute; reflexivity|]. split; [reflexivity|].
  eapply (proj2 (poll_network_failure_propagates (H := test_runtime)
                   unreachable (job_response 202 "") "token" NVCF_URL_PROD
                   1 3 32 env0 _ _ [] _ _ []
                   ltac:(vm_compute; reflexivity) eq_refl)).
Defined.

Lemma poll_missing_request_id_witness :
  _poll_response_async always_pending pending_without_id "token"
      NVCF_URL_PROD 1 3 32 env0
  = Some (Raise (KeyError "reqId"), []).
Proof.
  apply (poll_missing_request_id (H := test_runtime) always_pending
           pending_without_id "token" NVCF_URL_PROD 1 3 32 env0 ∅);
    reflexivity.
Defined.

Lemma poll_sleeps_bounded_witness :
  ∃ r tr,
    _poll_response_async always_pending (job_response 202 "") "token"
        NVCF_URL_PROD 1 3 32 env0 = Some (r, tr) ∧
    Forall (λ d, (d <= 32)%Q) (sleeps tr) ∧
    (length (sleeps tr) ≤ Z.to_nat (3 - 1))%nat.
Proof.
  eexists _, _. split; [vm_compute; reflexivity|].
  exact (poll_sleeps_bounded (H := test_runtime) always_pending
           (job_response 202 "") "token" NVCF_URL_PROD 1 3 32 env0 _ _
           ltac:(vm_compute; reflexivity)).
Defined.

Lemma poll_requests_follow_request_id_witness :
  ∃ r first d second rep j id,
    _poll_response_async fails_at_second_poll (job_response 202 "") "token"
        NVCF_URL_PROD 1 3 32 env0
    = Some (r, [first; EvSleep d] ++ EvRequest second rep :: []) ∧
    json (default (job_response 202 "") (last_response [first; EvSleep d]))
    = Ok j ∧
    getitem j "reqId" = Ok id ∧
    second = {| meth := GET;
                url := PStr (NVCF_URL_PROD +:+ "/exec/status/" +:+ py_str id);
                headers := {[ "Authorization" := "Bearer " +:+ "token" ]};
                payload := NoBody |}.
Proof.
  destruct (poll_requests_follow_request_id (H := test_runtime)
              fails_at_second_poll (job_response 202 "") "token" NVCF_URL_PROD
              1 3 32 env0 _ _ [_; _] _ _ []
              ltac:(vm_compute; reflexivity) eq_refl)
    as (j & id & Hjson & Hid & Hreq).
  eexists _, _, _, _, _, j, id.
  split; [vm_compute; reflexivity|]. split; [exact Hjson|].
  split; [exact Hid|exact Hreq].
Defined.

Lemma poll_pending_server_times_out_witness :
  ∃ tr,
    _poll_response_async always_pending (job_response 202 "") "token"
        NVCF_URL_PROD 1 3 32 env0
    = Some (Raise (TimeoutError "Maximum polling attempts reached"), tr) ∧
    requests tr = Z.to_nat 3 ∧
    length (sleeps tr) = Z.to_nat (3 - 1).
Proof.
  apply (poll_pending_server_times_out (H := test_runtime)).
  - intros past req. exists (job_response 202 "").
    split; [reflexivity|]. split; [by exists ""|].
    split; [reflexivity|]. by eexists _, _.
  - split; [reflexivity|]. by eexists _, _.
Defined.

Lemma prepare_uploads_file_to_created_asset_witness :
  ∃ tr data created uploaded j asset_url asset_id,
    _prepare_local_asset_async both_uploads_accepted "token" "a.png" "a.png"
        NVCF_URL_PROD two_files = Some (Ok (PStr "asset-1"), tr) ∧
    files two_files !! "a.png" = Some data ∧
    json created = Ok j ∧
    getitem j "uploadUrl" = Ok asset_url ∧
    getitem j "assetId" = Ok asset_id ∧
    responses tr = [created; uploaded] ∧
    PStr "asset-1" = (if status uploaded =? 200 then asset_id else PNone).
Proof.
  destruct (prepare_uploads_file_to_created_asset both_uploads_accepted "token"
              "a.png" "a.png" NVCF_URL_PROD two_files _ _
              ltac:(vm_compute; reflexivity))
    as (data & created & uploaded & j & asset_url & asset_id
        & Hfile & Hjson & Hurl & Hid & Hresp & _ & Hv).
  eexists _, data, created, uploaded, j, asset_url, asset_id.
  split; [vm_compute; reflexivity|].
  split; [exact Hfile|]. split; [exact Hjson|]. split; [exact Hurl|].
  split; [exact Hid|]. split; [exact Hresp|exact Hv].
Defined.

Lemma prepare_missing_key_skips_upload_witness :
  ∃ r req rest key,
    _prepare_local_asset_async creation_without_id "token" "a.png" "a.png"
        NVCF_URL_PROD two_files
    = Some (r, EvRequest req (Resp created_without_id) :: rest) ∧
    rest = [] ∧
    r = Raise (KeyError key) ∧
    (key = "uploadUrl" ∨ key = "assetId").
Proof.
  destruct (prepare_missing_key_skips_upload creation_without_id "token" "a.png"
              "a.png" NVCF_URL_PROD two_files _ _ _ created_without_id _
              {[ "uploadUrl" := PStr "https://upload.example/asset-1" ]}
              ltac:(vm_compute; reflexivity) eq_refl eq_refl
              ltac:(right; reflexivity))
    as (Hrest & key & Hr & _ & Hkey).
  eexists _, _, _, key. split; [vm_compute; reflexivity|].
  split; [exact Hrest|]. split; [exact Hr|exact Hkey].
Defined.

Lemma prepare_creates_then_uploads_witness :
  ∃ r tr,
    _prepare_local_asset_async both_uploads_accepted "token" "a.png" "a.png"
        NVCF_URL_PROD two_files = Some (r, tr) ∧
    (meth <$> sent tr) `prefix_of` [POST; PUT].
Proof.
  eexists _, _. split; [vm_compute; reflexivity|].
  exact (prepare_creates_then_uploads both_uploads_accepted "token" "a.png"
           "a.png" NVCF_URL_PROD two_files _ _ ltac:(vm_compute; reflexivity)).
Defined.

Lemma poll_returns_only_non_pending_witness :
  ∃ tr,
    _poll_response_async fails_at_second_poll (job_response 202 "") "token"
        NVCF_URL_PROD 1 3 32 env0 = Some (Ok (job_response 500 "failed"), tr) ∧
    status (job_response 500 "failed") ≠ 202.
Proof.
  eexists. split; [vm_compute; reflexivity|].
  exact (poll_returns_only_non_pending (H := test_runtime) fails_at_second_poll
           (job_response 202 "") "token" NVCF_URL_PROD 1 3 32 env0 _ _
           ltac:(vm_compute; reflexivity)).
Defined.

Lemma api_call_result_invariant_witness :
  ∃ res tr,
    api_call_async done_at_first_poll "token" [("seed", PInt 1)] []
        NVCF_URL_PROD env0 = Some (Ok res, tr) ∧
    status_code res ≠ 202 ∧
    (status_code res = 200 →
     response_text res = output res ∨
     response_text res = PStr "Connection Timeout" ∧ output res = PNone).
Proof.
  eexists _, _. split; [vm_compute; reflexivity|].
  destruct (api_call_result_invariant (H := test_runtime) done_at_first_poll
              "token" [("seed", PInt 1)] [] NVCF_URL_PROD env0 _ _
              ltac:(vm_compute; reflexivity))
    as (Hpending & _ & Hdone).
  split; [exact Hpending|exact Hdone].
Defined.

Lemma api_call_connection_timeout_witness :
  ∃ res tr,
    api_call_async done_with_slow_body "token" [("seed", PInt 1)] []
        NVCF_URL_PROD env0 = Some (Ok res, tr) ∧
    last_response tr = Some body_timed_out ∧
    status body_timed_out = 200 ∧
    process_response body_timed_out = Raise ConnectionTimeoutError ∧
    res = {| response_text := PStr "Connection Timeout"; output := PNone;
             status_code := 200 |}.
Proof.
  eexists _, _. split; [vm_compute; reflexivity|].
  split; [reflexivity|]. split; [reflexivity|]. split; [reflexivity|].
  exact (proj2 (api_call_connection_timeout (H := test_runtime)
                  done_with_slow_body "token" [("seed", PInt 1)] []
                  NVCF_URL_PROD env0 _ _ body_timed_out ConnectionTimeoutError
                  ltac:(vm_compute; reflexivity) eq_refl eq_refl eq_refl)).
Defined.


Lemma api_call_missing_file_fails_witness :
  "missing.png" ∈ ["a.png"; "missing.png"] ∧
  files two_files !! "missing.png" = None ∧
  ∃ e tr,
    api_call_async both_uploads_accepted "token" [("seed", PInt 1)]
        ["a.png"; "missing.png"] NVCF_URL_PROD two_files
    = Some (Raise e, tr) ∧
    upload_assets both_uploads_accepted "token" NVCF_URL_PROD
        ["a.png"; "missing.png"] [] two_files = Some (Raise e, tr).
Proof.
  split; [right; left|]. split; [reflexivity|].
  apply (api_call_missing_file_fails (H := test_runtime) both_uploads_accepted
           "token" [("seed", PInt 1)] ["a.png"; "missing.png"] NVCF_URL_PROD
           two_files "missing.png"); [right; left|reflexivity].
Defined.

Lemma api_call_request_bound_witness :
  ∃ r tr,
    api_call_async both_uploads_accepted "token" [("seed", PInt 1)]
        ["a.png"; "b.png"] NVCF_URL_PROD two_files = Some (r, tr) ∧
    (requests tr ≤ 2 * 2 + 11)%nat.
Proof.
  eexists _, _. split; [vm_compute; reflexivity|].
  exact (api_call_request_bound (H := test_runtime) both_uploads_accepted
           "token" [("seed", PInt 1)] ["a.png"; "b.png"] NVCF_URL_PROD
           two_files _ _ ltac:(vm_compute; reflexivity)).
Defined.


Lemma unpack_zip_keys_witness :
  ∃ out content zip_archive,
    _unpack_zip_response_async zip_response = Ok out ∧
    read zip_response = Ok content ∧
    ZipFile content = Ok zip_archive ∧
    ∀ key, key ∈ dom out ↔
           ∃ name, name ∈ namelist zip_archive ∧ entry_key name = Some key.
Proof.
  destruct (unpack_zip_keys (H := test_runtime) zip_response _
              ltac:(vm_compute; reflexivity))
    as (content & zip_archive & Hread & Hopen & Hkeys).
  eexists _, content, zip_archive. split; [vm_compute; reflexivity|].
  split; [exact Hread|]. split; [exact Hopen|exact Hkeys].
Defined.

Lemma unpack_zip_last_entry_wins_witness :
  ∃ out value,
    _unpack_zip_response_async zip_response = Ok out ∧
    namelist sample_archive = ["a.json"] ++ "image.png" :: ["video.mp4"] ∧
    entry_key "image.png" = Some "image" ∧
    entry_value sample_archive "image.png" = Ok value ∧
    out !! "image" = Some value.
Proof.
  destruct (unpack_zip_last_entry_wins (H := test_runtime) zip_response
              "PK:sample" sample_archive _ ["a.json"] "image.png" ["video.mp4"]
              "image" ltac:(vm_compute; reflexivity) eq_refl eq_refl eq_refl
              eq_refl)
    as (value & Hvalue & Hout).
  { intros later ->%list_elem_of_singleton. discriminate. }
  eexists _, value. split; [vm_compute; reflexivity|].
  split; [reflexivity|]. split; [reflexivity|]. split; [exact Hvalue|exact Hout].
Defined.

Lemma unpack_zip_fails_on_first_bad_entry_witness :
  namelist truncated_archive = ["image.png"] ++ "a.json" :: ["video.mp4"] ∧
  @entry_value truncated_runtime truncated_archive "a.json"
  = Raise (OtherError "JSONDecodeError") ∧
  @_unpack_zip_response_async truncated_runtime zip_response
  = Raise (OtherError "JSONDecodeError").
Proof.
  split; [reflexivity|]. split; [reflexivity|].
  apply (unpack_zip_fails_on_first_bad_entry (H := truncated_runtime)
           zip_response "PK:sample" truncated_archive ["image.png"] "a.json"
           ["video.mp4"]); try reflexivity.
  - intros earlier ->%list_elem_of_singleton. right. by eexists.
  - discriminate.
Defined.

Lemma json_entry_key_is_stem_witness :
  slash_free "a" = true ∧
  entry_key ("a" +:+ ".json") = Some "a" ∧
  entry_key ("outputs/run1" +:+ "/" +:+ "a" +:+ ".json") = Some "a".
Proof.
  split; [reflexivity|].
  apply (json_entry_key_is_stem "outputs/run1" "a"). reflexivity.
Defined.

#[local] Existing Instance test_video.

Lemma encode_video_rejects_bad_range_witness :
  encode_video "frames" (-1) 0 "cam" "out.mp4" one_frame
  = Some (Raise (ValueError "start_frame must be non-negative"), []) ∧
  encode_video "frames" 0 0 "cam" "out.mp4" one_frame
  = Some (Raise (ValueError "num_frames must be positive"), []).
Proof.
  split.
  - apply (proj1 (encode_video_rejects_bad_range (H := test_video) "frames"
                    (-1) 0 "cam" "out.mp4" one_frame)).
    reflexivity.
  - apply (proj2 (encode_video_rejects_bad_range (H := test_video) "frames"
                    0 0 "cam" "out.mp4" one_frame));
      discriminate.
Defined.

Lemma encode_video_reports_first_missing_frame_witness :
  frame_on_disk one_frame "frames" "cam" 0 ∧
  ¬ frame_on_disk one_frame "frames" "cam" 1 ∧
  encode_video "frames" 0 2 "cam" "out.mp4" one_frame
  = Some (Raise (ValueError "Missing frame at frame index 1"), []).
Proof.
  assert (Hzero : frame_on_disk one_frame "frames" "cam" 0)
    by (split; by eexists).
  assert (Hone : ¬ frame_on_disk one_frame "frames" "cam" 1)
    by (intros [[data Hdata] _]; discriminate Hdata).
  split; [exact Hzero|]. split; [exact Hone|].
  apply (encode_video_reports_first_missing_frame (H := test_video) "frames"
           0 2 "cam" "out.mp4" one_frame 1).
  - discriminate.
  - split; [discriminate|reflexivity].
  - intros i Hi. replace i with 0 by lia. exact Hzero.
  - exact Hone.
Defined.

Lemma encode_video_renders_checked_frames_witness :
  encode_video "frames" 0 1 "cam" "out.mp4" one_frame = Some (Ok tt, []).
Proof.
  apply (encode_video_renders_checked_frames (H := test_video) "frames" 0 1
           "cam" "out.mp4" one_frame).
  - discriminate.
  - reflexivity.
  - intros i Hi. replace i with 0 by lia. split; by eexists.
Defined.

Lemma format_request_needs_strings_witness :
  ∃ e,
    _format_request "vis_control --seed=1" "token" [PStr "asset-1"; PNone]
    = Raise e ∧
    e = TypeError.
Proof.
  eexists. split; [reflexivity|].
  exact (proj2 (format_request_needs_strings "vis_control --seed=1" "token"
                  [PStr "asset-1"; PNone]) _ eq_refl).
Defined.
